(** * TEAM entitlement aggregation and session-overlap guard

    A shallow embedding of the two Lambda handlers

      - [teamCheckOverlappingSessions/src/index.py]  (module [Guard])
      - [teamgetEntitlement/src/index.py]            (module [Entitlement])

    Python exceptions are an error monad whose exceptions carry their
    class, because the handlers catch by class ([except ClientError] in
    most places, [except Exception] around the AppSync call).  The AWS
    services the handlers call are parameters of the model: every call is
    given by its outcome, a value or a raised exception.  [print] only
    writes to the log and is left out. *)

From Stdlib Require Import ZArith String Ascii List Bool Lia DecimalString.
From stdpp Require Import base option list strings gmap.

Local Open Scope string_scope.
Local Open Scope Z_scope.
Local Open Scope list_scope.

(** ** Python values, exceptions and the error monad *)

(** The scalar values a JSON event or a DynamoDB attribute holds. *)
Inductive pyval :=
| PNone
| PBool (b : bool)
| PInt (n : Z)
| PStr (s : string).

#[global] Instance pyval_eq_dec : EqDecision pyval.
Proof. solve_decision. Defined.

(** Python truth value: [None], [False], [0] and the empty string are false. *)
Definition truthy (v : pyval) : bool :=
  match v with
  | PNone => false
  | PBool b => b
  | PInt n => negb (Z.eqb n 0)
  | PStr s => negb (String.eqb s "")
  end.

(** The builtin [all] on a list of values. *)
Definition all (vs : list pyval) : bool := forallb truthy vs.

(** [d.get(k)] on a dict of scalars: [None] when the key is absent. *)
Definition dict_get (d : gmap string pyval) (k : string) : pyval :=
  default PNone (d !! k).

(** What botocore's [ClientError] carries: the service's error code and
    message and the name of the operation that was called. *)
Record client_error := {
  error_code : string;
  error_message : string;
  operation_name : string
}.

Inductive exn :=
| ClientError (e : client_error)
| TypeError (msg : string)
| ValueError (msg : string)
| KeyError (key : string)
| AttributeError (msg : string)
| OtherException (class msg : string).

(** [str(error)] for a [ClientError]: botocore formats the message
    "An error occurred (code) when calling the op operation: message". *)
Definition str_ClientError (e : client_error) : string :=
  "An error occurred (" +:+ error_code e +:+ ") when calling the "
    +:+ operation_name e +:+ " operation: " +:+ error_message e.

Inductive outcome (A : Type) :=
| Return (a : A)
| Raise (e : exn).
Arguments Return {A} a.
Arguments Raise {A} e.

#[global] Instance outcome_ret : MRet outcome := @Return.
#[global] Instance outcome_bind : MBind outcome := λ A B f m,
  match m with
  | Return a => f a
  | Raise e => Raise e
  end.

(** [try: body except ClientError as e: handler e] *)
Definition try_except_ClientError {A} (body : outcome A)
    (handler : client_error → outcome A) : outcome A :=
  match body with
  | Raise (ClientError e) => handler e
  | _ => body
  end.

(** [try: body except Exception as e: handler e] *)
Definition try_except_Exception {A} (body : outcome A)
    (handler : exn → outcome A) : outcome A :=
  match body with
  | Raise e => handler e
  | _ => body
  end.

(** ** The session-overlap guard *)

Module Guard.

(** A record of the requests table.  [id] is the table's key, so every
    item has it; the other attributes may be missing from an item. *)
Record request := {
  r_id : pyval;
  r_email : option pyval;
  r_accountId : option pyval;
  r_roleId : option pyval;
  r_status : option pyval
}.

(** A table as one [Scan] call sees it: its items in scan order, and the
    number of them the first call evaluates.  DynamoDB evaluates at most
    1 MB of items per call and applies the filter to those; the rest is
    read only by further calls that pass [LastEvaluatedKey]. *)
Record table := {
  table_items : list request;
  first_page : nat
}.

(** The items the first [Scan] call evaluates. *)
Definition scanned (t : table) : list request :=
  take (first_page t) (table_items t).

(** The requests store as the handler reaches it: scanning the table of a
    given name either raises or answers from the table. *)
Definition dynamodb := pyval → outcome table.

Record scan_response := { Items : option (list pyval) }.

(** The [FilterExpression] of the scan with its attribute values bound:
    [#status = :status_val AND email = :email_val AND
     accountId = :account_id_val AND roleId = :role_id_val AND
     id <> :current_id]. *)
Definition FilterExpression (email account_id role_id current_request_id : pyval)
    (r : request) : bool :=
  bool_decide (r_status r = Some (PStr "in progress"))
  && bool_decide (r_email r = Some email)
  && bool_decide (r_accountId r = Some account_id)
  && bool_decide (r_roleId r = Some role_id)
  && negb (bool_decide (r_id r = current_request_id)).

(** [table.scan(FilterExpression=..., ProjectionExpression="id")]: one
    call, whose [Items] are the ids of the matching items of the first
    page. *)
Definition scan (db : dynamodb) (table_name : pyval) (flt : request → bool)
    : outcome scan_response :=
  t ← db table_name;
  mret {| Items := Some (r_id <$> List.filter flt (scanned t)) |}.

(** The handler.  It calls [scan] once and does not look for
    [LastEvaluatedKey] in the response.  The list of overlapping ids it
    builds when the count is positive is only printed. *)
Definition lambda_handler (db : dynamodb) (event : gmap string pyval)
    : outcome (gmap string pyval) :=
  let table_name := dict_get event "requests_table" in
  let current_request_id := dict_get event "id" in
  let email := dict_get event "email" in
  let account_id := dict_get event "accountId" in
  let role_id := dict_get event "roleId" in
  if negb (all [table_name; current_request_id; email; account_id; role_id]) then
    Return {[ "hasOverlappingSessions" := PBool false;
              "error" := PStr "Missing required parameters" ]}
  else
    try_except_ClientError
      (response ← scan db table_name
                    (FilterExpression email account_id role_id current_request_id);
       let items := default [] (Items response) in
       let overlapping_count := Z.of_nat (length items) in
       Return {[ "hasOverlappingSessions" := PBool (Z.ltb 0 overlapping_count);
                 "overlappingCount" := PInt overlapping_count ]})
      (λ error,
       Return {[ "hasOverlappingSessions" := PBool false;
                 "error" := PStr (str_ClientError error) ]}).

(** *** Specification vocabulary *)

Definition required_keys : list string :=
  ["requests_table"; "id"; "email"; "accountId"; "roleId"].

(** All five inputs are present and non-empty. *)
Definition inputs_present (event : gmap string pyval) : Prop :=
  Forall (λ k, truthy (dict_get event k) = true) required_keys.

(** An input is absent (no key, or a null value) or the empty string. *)
Definition absent_or_empty (event : gmap string pyval) (k : string) : Prop :=
  event !! k = None ∨ event !! k = Some PNone ∨ event !! k = Some (PStr "").

(** The records the decision is about: in progress, same user, account and
    permission set. *)
Definition same_session (event : gmap string pyval) (r : request) : Prop :=
  r_status r = Some (PStr "in progress")
  ∧ r_email r = Some (dict_get event "email")
  ∧ r_accountId r = Some (dict_get event "accountId")
  ∧ r_roleId r = Some (dict_get event "roleId").

(** ... and which are not the current request. *)
Definition overlapping (event : gmap string pyval) (r : request) : Prop :=
  same_session event r ∧ r_id r ≠ dict_get event "id".

#[global] Instance same_session_dec event r : Decision (same_session event r).
Proof. unfold same_session. apply _. Defined.

#[global] Instance overlapping_dec event r : Decision (overlapping event r).
Proof. unfold overlapping. apply _. Defined.

End Guard.

(** ** The entitlement aggregator *)

Module Entitlement.

(** *** Builtins used by the handler *)

(** [int(s)] on a string: surrounding whitespace, an optional sign, then
    decimal digits, where single underscores may separate digits.  Only
    ASCII literals are modelled. *)
Definition is_space (c : ascii) : bool :=
  bool_decide (c ∈ [" "; "009"; "010"; "011"; "012"; "013"]%char).

Fixpoint lstrip (s : string) : string :=
  match s with
  | String c s' => if is_space c then lstrip s' else s
  | EmptyString => EmptyString
  end.

Definition strip (s : string) : string :=
  String.rev (lstrip (String.rev (lstrip s))).

Definition digit_value (c : ascii) : option Z :=
  let n := Z.of_N (N_of_ascii c) in
  if (48 <=? n) && (n <=? 57) then Some (n - 48) else None.

Inductive literal_state := AtStart | AfterDigit | AfterUnderscore.

Fixpoint digits (s : string) (acc : Z) (st : literal_state) : option Z :=
  match s with
  | EmptyString =>
      match st with AfterDigit => Some acc | _ => None end
  | String c s' =>
      match digit_value c with
      | Some d => digits s' (10 * acc + d) AfterDigit
      | None =>
          if Ascii.eqb c "_"%char
          then match st with AfterDigit => digits s' acc AfterUnderscore | _ => None end
          else None
      end
  end.

Definition int_of_string (s : string) : option Z :=
  match strip s with
  | String "+"%char s' => digits s' 0 AtStart
  | String "-"%char s' => Z.opp <$> digits s' 0 AtStart
  | s' => digits s' 0 AtStart
  end.

(** CPython converts between [str] and [int] only up to this many
    digits, and raises [ValueError] beyond. *)
Definition max_str_digits : Z := 4300.

(** The digits of a literal that count towards the limit: those of its
    leading run of digits and underscores, after the sign. *)
Fixpoint digit_run (s : string) : Z :=
  match s with
  | EmptyString => 0
  | String c s' =>
      match digit_value c with
      | Some _ => 1 + digit_run s'
      | None => if Ascii.eqb c "_"%char then digit_run s' else 0
      end
  end.

Definition literal_digits (s : string) : Z :=
  match strip s with
  | String "+"%char s' => digit_run s'
  | String "-"%char s' => digit_run s'
  | s' => digit_run s'
  end.

(** [int(v)] *)
Definition int (v : pyval) : outcome Z :=
  match v with
  | PStr s =>
      if max_str_digits <? literal_digits s then
        Raise (ValueError "Exceeds the limit (4300 digits) for integer string conversion")
      else
      match int_of_string s with
      | Some n => Return n
      | None => Raise (ValueError "invalid literal for int() with base 10")
      end
  | PInt n => Return n
  | PBool b => Return (if b then 1 else 0)
  | PNone => Raise (TypeError "int() argument must be a string, a bytes-like object or a real number, not 'NoneType'")
  end.

(** The decimal numeral of an integer, which is what [str(n)] returns. *)
Definition str (n : Z) : string := NilZero.string_of_int (Z.to_int n).

(** The least absolute value whose numeral has more than
    [max_str_digits] digits. *)
Definition str_limit : Z := Eval vm_compute in 10 ^ max_str_digits.
Arguments str_limit : simpl never.

(** [str(n)] on an integer, with the limit on the digits. *)
Definition str_of_int (n : Z) : outcome string :=
  if str_limit <=? Z.abs n then
    Raise (ValueError "Exceeds the limit (4300 digits) for integer string conversion")
  else Return (str n).

(** [d[k]] on a dict of scalars *)
Definition subscript (d : gmap string pyval) (k : string) : outcome pyval :=
  match d !! k with
  | Some v => Return v
  | None => Raise (KeyError k)
  end.

(** *** Data *)

(** An eligibility-policy item as read from the policy table.  The handler
    reads every attribute with [.get], so each may be missing.  [id] is the
    table's string key. *)
Record item := {
  item_id : option string;
  item_duration : option pyval;
  item_accounts : option (list (gmap string pyval));
  item_ous : option (list (gmap string pyval));
  item_permissions : option (list (gmap string pyval));
  item_approvalRequired : option pyval
}.

(** One entry of the output's [policy] list. *)
Record policy := {
  accounts : list (gmap string pyval);
  permissions : list (gmap string pyval);
  approvalRequired : pyval;
  duration : pyval
}.

(** The event of the handler, which subscripts its four keys: [id],
    [userId], [groupIds] and [username]. *)
Record event := {
  ev_id : pyval;
  ev_userId : pyval;
  ev_groupIds : list pyval;
  ev_username : pyval
}.

Record result := {
  res_id : pyval;
  res_policy : list policy;
  res_username : pyval
}.

(** An account as the Organizations API lists it. *)
Record org_account := { Id : string; Name : string }.

Record query_response := { q_Items : option (list item) }.
Record get_item_response := { g_Item : option item }.
Record entitlements := { Items : list item }.

(** The parsed body of the AppSync response; the handler only tests
    whether it has an ["errors"] member. *)
Record appsync_response := { errors : option (list string) }.

(** The services of one invocation, each call given by its outcome.
    [list_accounts_for_parent ou] is the sequence of pages the paginator
    yields for [ou]; a page that raises ends the iteration. *)
Record aws := {
  ACCOUNT_ID : string;
  describe_organization : outcome string;
  policy_table_query : pyval → outcome query_response;
  policy_table_get_item : pyval → outcome get_item_response;
  list_accounts_for_parent : pyval → list (outcome (list org_account));
  get_credentials : option string;
  requests_post : result → outcome appsync_response
}.

(** *** The functions of [index.py] *)

(** [get_mgmt_account_id]: the except branch only prints, so the function
    returns [None] there. *)
Definition get_mgmt_account_id (env : aws) : outcome (option string) :=
  try_except_ClientError
    (master ← describe_organization env;
     Return (Some master))
    (λ _, Return None).

(** The entry [{"name": acct["Name"], "id": acct["Id"]}]. *)
Definition account_entry (acct : org_account) : gmap string pyval :=
  {[ "name" := PStr (Name acct); "id" := PStr (Id acct) ]}.

(** The body of the loop over a page's accounts. *)
Definition visit_account (deployed_in_mgmt : bool) (mgmt_account_id : option string)
    (account : list (gmap string pyval)) (acct : org_account)
    : list (gmap string pyval) :=
  if negb deployed_in_mgmt then
    if negb (bool_decide (Some (Id acct) = mgmt_account_id))
    then account ++ [account_entry acct]
    else account
  else account ++ [account_entry acct].

(** The loop over the paginator's pages. *)
Fixpoint visit_pages (deployed_in_mgmt : bool) (mgmt_account_id : option string)
    (pages : list (outcome (list org_account)))
    (account : list (gmap string pyval)) : outcome (list (gmap string pyval)) :=
  match pages with
  | [] => Return account
  | Raise e :: _ => Raise e
  | Return page :: pages' =>
      visit_pages deployed_in_mgmt mgmt_account_id pages'
        (fold_left (visit_account deployed_in_mgmt mgmt_account_id) page account)
  end.

(** [list_account_for_ou]: the list of entries, or [None] from the except
    branch, which only prints. *)
Definition list_account_for_ou (env : aws) (mgmt_account_id : option string)
    (ouId : pyval) : outcome (option (list (gmap string pyval))) :=
  let deployed_in_mgmt := bool_decide (Some (ACCOUNT_ID env) = mgmt_account_id) in
  try_except_ClientError
    (account ← visit_pages deployed_in_mgmt mgmt_account_id
                 (list_accounts_for_parent env ouId) [];
     Return (Some account))
    (λ _, Return None).

Definition get_entitlements (env : aws) (id : pyval) : outcome entitlements :=
  policies ←
    try_except_ClientError
      (response ← policy_table_query env id;
       match q_Items response with
       | Some its => Return ([] ++ its)
       | None => Return []
       end)
      (λ _, Return []);
  policies ←
    try_except_ClientError
      (response ← policy_table_get_item env id;
       match g_Item response with
       | Some old_policy =>
           if negb (existsb (λ p, bool_decide (item_id p = item_id old_policy)) policies)
           then Return (policies ++ [old_policy])
           else Return policies
       | None => Return policies
       end)
      (λ _, Return policies);
  Return {| Items := policies |}.

(** [lst.extend(data)]: [data] must be iterable. *)
Definition extend {A} (lst : list A) (data : option (list A)) : outcome (list A) :=
  match data with
  | Some l => Return (lst ++ l)
  | None => Raise (TypeError "'NoneType' object is not iterable")
  end.

(** The loop [for ou in item.get("ous", [])]. *)
Fixpoint expand_ous (env : aws) (mgmt_account_id : option string)
    (ous : list (gmap string pyval)) (accounts : list (gmap string pyval))
    : outcome (list (gmap string pyval)) :=
  match ous with
  | [] => Return accounts
  | ou :: ous' =>
      ouId ← subscript ou "id";
      data ← list_account_for_ou env mgmt_account_id ouId;
      accounts ← extend accounts data;
      expand_ous env mgmt_account_id ous' accounts
  end.

(** The body of the loop [for item in items]; the state is
    [(maxDuration, eligibility)].  [str(maxDuration)] is the argument of
    [item.get("duration", ...)], so it is evaluated for every item. *)
Definition process_item (env : aws) (mgmt_account_id : option string)
    (st : Z * list policy) (it : item) : outcome (Z * list policy) :=
  let '(maxDuration, eligibility) := st in
  let duration := default (PStr "0") (item_duration it) in
  d ← int duration;
  let maxDuration := if maxDuration <? d then d else maxDuration in
  accounts ← expand_ous env mgmt_account_id (default [] (item_ous it))
               (default [] (item_accounts it));
  fallback ← str_of_int maxDuration;
  Return (maxDuration,
          eligibility ++
            [ {| accounts := accounts;
                 permissions := default [] (item_permissions it);
                 approvalRequired := default (PBool true) (item_approvalRequired it);
                 duration := default (PStr fallback) (item_duration it) |} ]).

Fixpoint process_items (env : aws) (mgmt_account_id : option string)
    (st : Z * list policy) (items : list item) : outcome (Z * list policy) :=
  match items with
  | [] => Return st
  | it :: items' =>
      st ← process_item env mgmt_account_id st it;
      process_items env mgmt_account_id st items'
  end.

(** The loop [for id in [userId] + groupIds]. *)
Fixpoint process_ids (env : aws) (mgmt_account_id : option string)
    (st : Z * list policy) (ids : list pyval) : outcome (Z * list policy) :=
  match ids with
  | [] => Return st
  | id :: ids' =>
      if negb (truthy id) then process_ids env mgmt_account_id st ids'
      else
        entitlement_response ← get_entitlements env id;
        let items := Items entitlement_response in
        match items with
        | [] => process_ids env mgmt_account_id st ids'
        | _ =>
            st ← process_items env mgmt_account_id st items;
            process_ids env mgmt_account_id st ids'
        end
  end.

(** The try block of [publishPolicy], as the lines it prints. *)
Definition post_policy (env : aws) (res : result) : outcome (list string) :=
  try_except_Exception
    (response ← requests_post env res;
     match errors response with
     | Some _ => Return ["Error attempting to query AppSync"]
     | None => Return ["Mutation successful"]
     end)
    (λ _, Return ["Error with Query"]).

Definition publishPolicy (env : aws) (res : result) : outcome result :=
  match get_credentials env with
  | None =>
      Raise (AttributeError "'NoneType' object has no attribute 'get_frozen_credentials'")
  | Some _ =>
      _ ← post_policy env res;
      Return res
  end.

(** The handler up to the line that builds [result]. *)
Definition aggregate (env : aws) (mgmt_account_id : option string) (ev : event)
    : outcome result :=
  '(_, eligibility) ← process_ids env mgmt_account_id (0, [])
                        (ev_userId ev :: ev_groupIds ev);
  Return {| res_id := ev_id ev; res_policy := eligibility;
            res_username := ev_username ev |}.

Definition handler (env : aws) (mgmt_account_id : option string) (ev : event)
    : outcome result :=
  res ← aggregate env mgmt_account_id ev;
  publishPolicy env res.

(** A cold start: the module is loaded, which sets [mgmt_account_id], and
    the handler is called. *)
Definition invoke (env : aws) (ev : event) : outcome result :=
  mgmt_account_id ← get_mgmt_account_id env;
  handler env mgmt_account_id ev.

(** *** Specification vocabulary *)

(** An account is left out of an expansion when it is the management
    account, as stored in [mgmt_account_id], and the deployment account is
    another one. *)
Definition excluded (env : aws) (mgmt_account_id : option string)
    (acct : org_account) : Prop :=
  mgmt_account_id = Some (Id acct) ∧ Some (ACCOUNT_ID env) ≠ mgmt_account_id.

#[global] Instance excluded_dec env mgmt_account_id acct :
  Decision (excluded env mgmt_account_id acct).
Proof. unfold excluded. apply _. Defined.

(** The value the handler compares with [maxDuration] for an item. *)
Definition duration_of (it : item) : Z :=
  match int (default (PStr "0") (item_duration it)) with
  | Return d => d
  | Raise _ => 0
  end.

(** The maximum duration after a sequence of items, from [m]. *)
Definition running_max (m : Z) (items : list item) : Z :=
  fold_left (λ m it, Z.max m (duration_of it)) items m.

(** The policies of an identity set, in the order of the identities. *)
Fixpoint resolve (env : aws) (ids : list pyval) : outcome (list item) :=
  match ids with
  | [] => Return []
  | id :: ids' =>
      if negb (truthy id) then resolve env ids'
      else
        response ← get_entitlements env id;
        rest ← resolve env ids';
        Return (Items response ++ rest)
  end.

(** Publishing fails: the request raises, or the response has errors. *)
Definition publish_fails (env : aws) (res : result) : Prop :=
  (∃ e, requests_post env res = Raise e)
  ∨ (∃ errs, requests_post env res = Return {| errors := Some errs |}).

(** The entries [list_account_for_ou] builds from the members of an OU. *)
Definition expansion (env : aws) (mgmt_account_id : option string)
    (members : list org_account) : list (gmap string pyval) :=
  account_entry <$> filter (λ a, ¬ excluded env mgmt_account_id a) members.

(** What an entry keeps of its policy: the permissions and the approval
    flag with their defaults, the explicit accounts at the head of its
    accounts, and the policy's own duration when it has one. *)
Definition carries (it : item) (p : policy) : Prop :=
  permissions p = default [] (item_permissions it)
  ∧ approvalRequired p = default (PBool true) (item_approvalRequired it)
  ∧ default [] (item_accounts it) `prefix_of` accounts p
  ∧ ∀ v, item_duration it = Some v → duration p = v.

End Entitlement.

(** ** Concrete stores and events *)

Module Scenarios.
Import Guard Entitlement.

(** A Guard event with its five inputs. *)
Definition guard_event : gmap string pyval :=
  {[ "requests_table" := PStr "requests";
     "id" := PStr "r1";
     "email" := PStr "ana@example.com";
     "accountId" := PStr "111111111111";
     "roleId" := PStr "ps-admin" ]}.

(** The same event without its [email]. *)
Definition guard_event_no_email : gmap string pyval :=
  delete "email" guard_event.

Definition session (rid status acct : string) : request :=
  {| r_id := PStr rid;
     r_email := Some (PStr "ana@example.com");
     r_accountId := Some (PStr acct);
     r_roleId := Some (PStr "ps-admin");
     r_status := Some (PStr status) |}.

(** The current request [r1], another session in progress for the same
    triple, a completed one, and one in progress on another account. *)
Definition one_other : list request :=
  [ session "r1" "in progress" "111111111111";
    session "r2" "in progress" "111111111111";
    session "r3" "completed" "111111111111";
    session "r4" "in progress" "222222222222" ].

(** A table that its first page holds whole. *)
Definition one_page (items : list request) : table :=
  {| table_items := items; first_page := length items |}.

Definition requests_one_other : dynamodb := λ _, Return (one_page one_other).

(** The same table without [r2]. *)
Definition only_current : list request :=
  [ session "r1" "in progress" "111111111111";
    session "r3" "completed" "111111111111";
    session "r4" "in progress" "222222222222" ].

Definition requests_only_current : dynamodb := λ _, Return (one_page only_current).

(** A table whose first page ends after three items, with another
    session in progress for the same triple behind them. *)
Definition two_pages : table :=
  {| table_items :=
       [ session "r1" "in progress" "111111111111";
         session "r3" "completed" "111111111111";
         session "r4" "in progress" "222222222222";
         session "r2" "in progress" "111111111111" ];
     first_page := 3 |}.

Definition requests_two_pages : dynamodb := λ _, Return two_pages.

(** The service answers the scan with an error response. *)
Definition access_denied : client_error :=
  {| error_code := "AccessDeniedException";
     error_message := "not authorized to perform dynamodb:Scan";
     operation_name := "Scan" |}.

Definition requests_denied : dynamodb := λ _, Raise (ClientError access_denied).

(** The scan does not reach the service: botocore raises
    [EndpointConnectionError], which is not a [ClientError]. *)
Definition endpoint_unreachable : exn :=
  OtherException "EndpointConnectionError" "Could not connect to the endpoint URL".

Definition requests_unreachable : dynamodb := λ _, Raise endpoint_unreachable.

(** An aggregator environment from its policy table and directory: the
    items the [byEntityId] index holds for an entity, the item stored under
    a key, and the pages of an OU.  The deployment account is
    ["999999999999"], the management account ["000000000000"], and
    AppSync accepts the mutation. *)
Definition environment (by_entity : pyval → list item) (by_key : pyval → option item)
    (pages : pyval → list (outcome (list org_account))) : aws :=
  {| ACCOUNT_ID := "999999999999";
     describe_organization := Return "000000000000";
     policy_table_query := λ id, Return {| q_Items := Some (by_entity id) |};
     policy_table_get_item := λ id, Return {| g_Item := by_key id |};
     list_accounts_for_parent := pages;
     get_credentials := Some "AKIAEXAMPLE";
     requests_post := λ _, Return {| errors := None |} |}.

Definition request_event (user : string) (groups : list string) : event :=
  {| ev_id := PStr "req-1"; ev_userId := PStr user;
     ev_groupIds := PStr <$> groups; ev_username := PStr "ana" |}.

(** The end-to-end scenario of the specification: [u1] has no policy, its
    group [g1] has one with an explicit account and the OU [ou-1], which
    holds [acc2]. *)
Definition g1_policy : item :=
  {| item_id := Some "pol-1";
     item_duration := Some (PStr "10");
     item_accounts := Some [ {[ "id" := PStr "acc1" ]} ];
     item_ous := Some [ {[ "id" := PStr "ou-1" ]} ];
     item_permissions := Some [ {[ "id" := PStr "p1" ]} ];
     item_approvalRequired := Some (PBool false) |}.

Definition g1_index (id : pyval) : list item :=
  if bool_decide (id = PStr "g1") then [g1_policy] else [].

Definition ou1_pages (ou : pyval) : list (outcome (list org_account)) :=
  if bool_decide (ou = PStr "ou-1")
  then [Return [ {| Id := "acc2"; Name := "Account 2" |} ]]
  else [Return []].

Definition end_to_end : aws := environment g1_index (λ _, None) ou1_pages.

(** The expected aggregate: one entry, with [acc2] after [acc1]. *)
Definition end_to_end_result : result :=
  {| res_id := PStr "req-1";
     res_policy :=
       [ {| accounts := [ {[ "id" := PStr "acc1" ]};
                          {[ "name" := PStr "Account 2"; "id" := PStr "acc2" ]} ];
            permissions := [ {[ "id" := PStr "p1" ]} ];
            approvalRequired := PBool false;
            duration := PStr "10" |} ];
     res_username := PStr "ana" |}.

(** The same policy table, with a directory that answers the listing of
    [ou-1] with an error response. *)
Definition ou_denied : client_error :=
  {| error_code := "AccessDeniedException";
     error_message := "not authorized to perform organizations:ListAccountsForParent";
     operation_name := "ListAccountsForParent" |}.

Definition directory_denied : aws :=
  environment g1_index (λ _, None) (λ _, [Raise (ClientError ou_denied)]).

(** Identities [A] and [B]: the policy of [A] has duration 5, the policy
    of [B] has no duration. *)
Definition policy_A : item :=
  {| item_id := Some "pol-A"; item_duration := Some (PStr "5");
     item_accounts := Some [ {[ "id" := PStr "acc1" ]} ]; item_ous := None;
     item_permissions := Some [ {[ "id" := PStr "p1" ]} ];
     item_approvalRequired := None |}.

Definition policy_B : item :=
  {| item_id := Some "pol-B"; item_duration := None;
     item_accounts := Some [ {[ "id" := PStr "acc2" ]} ]; item_ous := None;
     item_permissions := Some [ {[ "id" := PStr "p2" ]} ];
     item_approvalRequired := None |}.

Definition AB_index (id : pyval) : list item :=
  if bool_decide (id = PStr "A") then [policy_A]
  else if bool_decide (id = PStr "B") then [policy_B]
  else [].

Definition A_then_B : aws := environment AB_index (λ _, None) (λ _, []).

(** What the aggregation of [A] then [B] builds. *)
Definition A_then_B_result : result :=
  {| res_id := PStr "req-1";
     res_policy :=
       [ {| accounts := [ {[ "id" := PStr "acc1" ]} ];
            permissions := [ {[ "id" := PStr "p1" ]} ];
            approvalRequired := PBool true;
            duration := PStr "5" |};
         {| accounts := [ {[ "id" := PStr "acc2" ]} ];
            permissions := [ {[ "id" := PStr "p2" ]} ];
            approvalRequired := PBool true;
            duration := PStr "5" |} ];
     res_username := PStr "ana" |}.

(** A policy of the old format, stored under its entity's id [g2] and also
    found through the index. *)
Definition g2_policy : item :=
  {| item_id := Some "g2"; item_duration := Some (PStr "4");
     item_accounts := None; item_ous := None; item_permissions := None;
     item_approvalRequired := None |}.

(** What the key lookup returns for it: the same record. *)
Definition g2_index (id : pyval) : list item :=
  if bool_decide (id = PStr "g2") then [g2_policy] else [].

Definition g2_key (id : pyval) : option item :=
  if bool_decide (id = PStr "g2") then Some g2_policy else None.

Definition both_paths : aws := environment g2_index g2_key (λ _, []).

(** The entry the handler builds for that policy. *)
Definition g2_entry : policy :=
  {| accounts := []; permissions := []; approvalRequired := PBool true;
     duration := PStr "4" |}.

Definition both_paths_result : result :=
  {| res_id := PStr "req-1"; res_policy := [g2_entry]; res_username := PStr "ana" |}.

(** A literal of [n] digits. *)
Definition ones (n : nat) : string := string_of_list_ascii (replicate n "1"%char).

(** The OU of the specification's example: the management account and
    [a1]. *)
Definition mgmt_and_a1 : list org_account :=
  [ {| Id := "000000000000"; Name := "mgmt" |}; {| Id := "a1"; Name := "a1" |} ].

Definition mgmt_ou : aws :=
  environment (λ _, []) (λ _, None) (λ _, [Return mgmt_and_a1]).

(** The same, where [describe_organization] answers with an error. *)
Definition org_denied : client_error :=
  {| error_code := "AccessDeniedException";
     error_message := "not authorized to perform organizations:DescribeOrganization";
     operation_name := "DescribeOrganization" |}.

Definition mgmt_unknown : aws :=
  {| ACCOUNT_ID := "999999999999";
     describe_organization := Raise (ClientError org_denied);
     policy_table_query := λ id, Return {| q_Items := Some (g1_index id) |};
     policy_table_get_item := λ _, Return {| g_Item := None |};
     list_accounts_for_parent := λ _, [Return mgmt_and_a1];
     get_credentials := Some "AKIAEXAMPLE";
     requests_post := λ _, Return {| errors := None |} |}.

(** AppSync answers with GraphQL errors, or cannot be reached. *)
Definition sink_rejects : aws :=
  {| ACCOUNT_ID := "999999999999";
     describe_organization := Return "000000000000";
     policy_table_query := λ id, Return {| q_Items := Some (g1_index id) |};
     policy_table_get_item := λ _, Return {| g_Item := None |};
     list_accounts_for_parent := ou1_pages;
     get_credentials := Some "AKIAEXAMPLE";
     requests_post := λ _, Return {| errors := Some ["Unauthorized"] |} |}.

Definition sink_unreachable : aws :=
  {| ACCOUNT_ID := "999999999999";
     describe_organization := Return "000000000000";
     policy_table_query := λ id, Return {| q_Items := Some (g1_index id) |};
     policy_table_get_item := λ _, Return {| g_Item := None |};
     list_accounts_for_parent := ou1_pages;
     get_credentials := Some "AKIAEXAMPLE";
     requests_post := λ _, Raise (OtherException "ConnectionError" "connection refused") |}.

(** The policy table cannot be reached. *)
Definition table_unreachable : aws :=
  {| ACCOUNT_ID := "999999999999";
     describe_organization := Return "000000000000";
     policy_table_query := λ _, Raise endpoint_unreachable;
     policy_table_get_item := λ _, Raise endpoint_unreachable;
     list_accounts_for_parent := λ _, [];
     get_credentials := Some "AKIAEXAMPLE";
     requests_post := λ _, Return {| errors := None |} |}.

(** A deployment whose table has no [byEntityId] index yet: the query is
    answered with an error response, the key lookup finds the policy. *)
Definition index_missing : client_error :=
  {| error_code := "ValidationException";
     error_message := "The table does not have the specified index: byEntityId";
     operation_name := "Query" |}.

Definition no_index : aws :=
  {| ACCOUNT_ID := "999999999999";
     describe_organization := Return "000000000000";
     policy_table_query := λ _, Raise (ClientError index_missing);
     policy_table_get_item := λ i, Return {| g_Item := g2_key i |};
     list_accounts_for_parent := λ _, [];
     get_credentials := Some "AKIAEXAMPLE";
     requests_post := λ _, Return {| errors := None |} |}.

(** The key lookup is answered with an error response. *)
Definition key_denied : client_error :=
  {| error_code := "AccessDeniedException";
     error_message := "not authorized to perform dynamodb:GetItem";
     operation_name := "GetItem" |}.

Definition no_key_lookup : aws :=
  {| ACCOUNT_ID := "999999999999";
     describe_organization := Return "000000000000";
     policy_table_query := λ i, Return {| q_Items := Some (g1_index i) |};
     policy_table_get_item := λ _, Raise (ClientError key_denied);
     list_accounts_for_parent := ou1_pages;
     get_credentials := Some "AKIAEXAMPLE";
     requests_post := λ _, Return {| errors := None |} |}.

(** The group [g1] has the policy [pol-1] in the index and a policy of
    the old format stored under its own id. *)
Definition g1_old_policy : item :=
  {| item_id := Some "g1"; item_duration := Some (PStr "2");
     item_accounts := Some [ {[ "id" := PStr "acc9" ]} ]; item_ous := None;
     item_permissions := None; item_approvalRequired := None |}.

Definition g1_key (i : pyval) : option item :=
  if bool_decide (i = PStr "g1") then Some g1_old_policy else None.

Definition new_and_old : aws := environment g1_index g1_key ou1_pages.

(** The listing of an OU whose second page is answered with an error. *)
Definition second_page_denied : aws :=
  environment g1_index (λ _, None)
    (λ _, [ Return [ {| Id := "acc2"; Name := "Account 2" |} ];
            Raise (ClientError ou_denied) ]).

(** The directory cannot be reached after the first page. *)
Definition directory_unreachable : aws :=
  environment g1_index (λ _, None)
    (λ _, [ Return [ {| Id := "acc2"; Name := "Account 2" |} ];
            Raise endpoint_unreachable ]).

(** The OU of [mgmt_ou], listed in two pages. *)
Definition mgmt_ou_paged : aws :=
  environment (λ _, []) (λ _, None)
    (λ _, [ Return [ {| Id := "000000000000"; Name := "mgmt" |} ];
            Return [ {| Id := "a1"; Name := "a1" |} ] ]).

(** A policy whose duration is not a number. *)
Definition hourly_policy : item :=
  {| item_id := Some "pol-h"; item_duration := Some (PStr "1h");
     item_accounts := None; item_ous := None; item_permissions := None;
     item_approvalRequired := None |}.

Definition hourly_index (i : pyval) : list item :=
  if bool_decide (i = PStr "A") then [policy_A]
  else if bool_decide (i = PStr "H") then [hourly_policy]
  else [].

Definition bad_duration : aws := environment hourly_index (λ _, None) (λ _, []).

(** The end-to-end scenario in a process without credentials. *)
Definition no_credentials : aws :=
  {| ACCOUNT_ID := "999999999999";
     describe_organization := Return "000000000000";
     policy_table_query := λ i, Return {| q_Items := Some (g1_index i) |};
     policy_table_get_item := λ _, Return {| g_Item := None |};
     list_accounts_for_parent := ou1_pages;
     get_credentials := None;
     requests_post := λ _, Return {| errors := None |} |}.

(** A policy with two OUs, the second one empty. *)
Definition two_ou_policy : list (gmap string pyval) :=
  [ {[ "id" := PStr "ou-1"; "name" := PStr "Workloads" ]};
    {[ "id" := PStr "ou-2" ]} ].

Definition ou1_members (ou : pyval) : list (list org_account) :=
  if bool_decide (ou = PStr "ou-1")
  then [ [ {| Id := "acc2"; Name := "Account 2" |} ] ]
  else [ [] ].

End Scenarios.

(** * Properties *)

Lemma bind_Return {A B} (a : A) (f : A → outcome B) : (Return a ≫= f) = f a.
Proof. reflexivity. Qed.

Lemma bind_Raise {A B} (e : exn) (f : A → outcome B) : (Raise e ≫= f) = Raise e.
Proof. reflexivity. Qed.

Lemma bind_Return_inv {A B} (m : outcome A) (f : A → outcome B) (b : B) :
  (m ≫= f) = Return b → ∃ a, m = Return a ∧ f a = Return b.
Proof. destruct m as [a|e]; simpl; [eauto | discriminate]. Qed.


(** ** The guard *)

Module GuardFacts.
Import Guard Scenarios.

Lemma required_keys_truthy (event : gmap string pyval) :
  inputs_present event →
  all [dict_get event "requests_table"; dict_get event "id"; dict_get event "email";
       dict_get event "accountId"; dict_get event "roleId"] = true.
Proof.
  unfold inputs_present, required_keys, all. rewrite !Forall_cons. simpl.
  intros (-> & -> & -> & -> & -> & _). reflexivity.
Qed.

Lemma absent_or_empty_falsy (event : gmap string pyval) (k : string) :
  absent_or_empty event k → truthy (dict_get event k) = false.
Proof.
  unfold absent_or_empty, dict_get.
  intros [-> | [-> | ->]]; reflexivity.
Qed.

(** The filter of the scan selects the overlapping records. *)
Lemma FilterExpression_overlapping (event : gmap string pyval) (r : request) :
  FilterExpression (dict_get event "email") (dict_get event "accountId")
    (dict_get event "roleId") (dict_get event "id") r
  = bool_decide (overlapping event r).
Proof.
  unfold FilterExpression.
  rewrite <- bool_decide_not, <- !bool_decide_and.
  apply bool_decide_ext. unfold overlapping, same_session. tauto.
Qed.

Lemma filter_bool_decide {A} (P : A → Prop) `{∀ x, Decision (P x)}
    (f : A → bool) (l : list A) :
  (∀ x, f x = bool_decide (P x)) → List.filter f l = filter P l.
Proof.
  intros Hf. induction l as [|x l IH]; [reflexivity|].
  simpl. rewrite Hf, IH.
  case_bool_decide.
  - by rewrite filter_cons_True.
  - by rewrite filter_cons_False.
Qed.

(** The handler once the inputs are present and the scan has answered. *)
Lemma lambda_handler_scanned (db : dynamodb) (event : gmap string pyval)
    (t : table) :
  inputs_present event →
  db (dict_get event "requests_table") = Return t →
  lambda_handler db event =
    Return {[ "hasOverlappingSessions" :=
                PBool (0 <? Z.of_nat (length (filter (overlapping event) (scanned t))));
              "overlappingCount" :=
                PInt (Z.of_nat (length (filter (overlapping event) (scanned t)))) ]}.
Proof.
  intros Hin Hdb. unfold lambda_handler.
  rewrite (required_keys_truthy _ Hin). simpl.
  unfold scan. rewrite Hdb. simpl.
  rewrite length_fmap.
  rewrite (filter_bool_decide (overlapping event)
             _ _ (FilterExpression_overlapping event)).
  reflexivity.
Qed.

(** With the five inputs present and a scan that answers, the decision
    is about the items of the first page: [hasOverlappingSessions] is true
    exactly when one of them is in progress for the same email, account
    and role under another id, [overlappingCount] is the number of such
    items, and when every item matching the triple is the current request
    the result is false with count 0.  When the first page holds the
    whole table, these items are all the records of the table. *)
Theorem overlap_decision (db : dynamodb) (event : gmap string pyval)
    (t : table) :
  inputs_present event →
  db (dict_get event "requests_table") = Return t →
  ∃ b : bool,
    lambda_handler db event =
      Return {[ "hasOverlappingSessions" := PBool b;
                "overlappingCount" :=
                  PInt (Z.of_nat (length (filter (overlapping event) (scanned t)))) ]}
    ∧ (b = true ↔ ∃ r, r ∈ scanned t ∧ overlapping event r)
    ∧ ((∀ r, r ∈ scanned t → same_session event r → r_id r = dict_get event "id") →
       b = false ∧ length (filter (overlapping event) (scanned t)) = 0%nat)
    ∧ ((length (table_items t) ≤ first_page t)%nat → scanned t = table_items t).
Proof.
  intros Hin Hdb.
  eexists. split; [by apply lambda_handler_scanned|].
  split; [|split].
  - rewrite Z.ltb_lt. split.
    + intros Hlen.
      destruct (filter (overlapping event) (scanned t)) as [|r l] eqn:Hf;
        [simpl in Hlen; lia|].
      exists r. apply and_comm, (list_elem_of_filter (overlapping event)).
      rewrite Hf. left.
    + intros (r & Hr & Hov).
      assert (r ∈ filter (overlapping event) (scanned t)) as Hrf
        by (by apply list_elem_of_filter).
      destruct (filter (overlapping event) (scanned t)); [inversion Hrf|simpl; lia].
  - intros Hcur.
    assert (filter (overlapping event) (scanned t) = []) as ->.
    { destruct (filter (overlapping event) (scanned t)) as [|r l] eqn:Hf; [done|].
      assert (r ∈ filter (overlapping event) (scanned t)) as Hr
        by (rewrite Hf; left).
      apply list_elem_of_filter in Hr as [[Hs Hne] Hr].
      destruct Hne. by apply Hcur. }
    split; reflexivity.
  - intros Hlen. unfold scanned. by apply take_ge.
Qed.

Lemma guard_event_present : inputs_present guard_event.
Proof. unfold inputs_present, required_keys. repeat constructor. Qed.

Lemma overlap_decision_witness :
  inputs_present guard_event
  ∧ requests_one_other (dict_get guard_event "requests_table")
    = Return (one_page one_other)
  ∧ ∃ b : bool,
      lambda_handler requests_one_other guard_event =
        Return {[ "hasOverlappingSessions" := PBool b;
                  "overlappingCount" :=
                    PInt (Z.of_nat (length (filter (overlapping guard_event)
                                              (scanned (one_page one_other))))) ]}
      ∧ (b = true ↔ ∃ r, r ∈ scanned (one_page one_other) ∧ overlapping guard_event r)
      ∧ ((∀ r, r ∈ scanned (one_page one_other) → same_session guard_event r →
               r_id r = dict_get guard_event "id") →
         b = false
         ∧ length (filter (overlapping guard_event) (scanned (one_page one_other)))
           = 0%nat)
      ∧ ((length (table_items (one_page one_other))
          ≤ first_page (one_page one_other))%nat →
         scanned (one_page one_other) = table_items (one_page one_other)).
Proof.
  split; [exact guard_event_present|].
  split; [reflexivity|].
  apply (overlap_decision requests_one_other guard_event (one_page one_other));
    [exact guard_event_present | reflexivity].
Defined.

(** C1, at an input where the code breaks it. The first page of the
    table ends after three items and holds no other session of the
    triple; the fourth item is one, in progress under another id. The
    handler reads the first page only and returns false with count 0,
    while an overlapping record exists in the table. *)
Theorem scan_stops_at_first_page :
  inputs_present guard_event
  ∧ requests_two_pages (dict_get guard_event "requests_table") = Return two_pages
  ∧ (∃ r, r ∈ table_items two_pages ∧ overlapping guard_event r)
  ∧ lambda_handler requests_two_pages guard_event =
      Return {[ "hasOverlappingSessions" := PBool false;
                "overlappingCount" := PInt 0 ]}.
Proof.
  split; [exact guard_event_present|]. split; [reflexivity|]. split.
  - exists (session "r2" "in progress" "111111111111"). split.
    + unfold two_pages. simpl. do 3 right. left.
    + apply (bool_decide_unpack (overlapping guard_event _)).
      vm_compute. exact I.
  - vm_compute. reflexivity.
Qed.

(** The two cases of the specification's example: one other session in
    progress gives true with count 1, and a table where the only record
    matching the triple is the current request gives false with count 0. *)
Example lambda_handler_one_other :
  lambda_handler requests_one_other guard_event =
    Return {[ "hasOverlappingSessions" := PBool true; "overlappingCount" := PInt 1 ]}.
Proof. vm_compute. reflexivity. Qed.

Example lambda_handler_only_current :
  lambda_handler requests_only_current guard_event =
    Return {[ "hasOverlappingSessions" := PBool false; "overlappingCount" := PInt 0 ]}.
Proof. vm_compute. reflexivity. Qed.

(** The handler when the scan raises a [ClientError]. *)
Lemma lambda_handler_ClientError (db : dynamodb) (event : gmap string pyval)
    (e : client_error) :
  inputs_present event →
  db (dict_get event "requests_table") = Raise (ClientError e) →
  lambda_handler db event =
    Return {[ "hasOverlappingSessions" := PBool false;
              "error" := PStr (str_ClientError e) ]}.
Proof.
  intros Hin Hdb. unfold lambda_handler.
  rewrite (required_keys_truthy _ Hin). simpl.
  unfold scan. rewrite Hdb. reflexivity.
Qed.

(** An exception of another class leaves the handler. *)
Lemma lambda_handler_raises (db : dynamodb) (event : gmap string pyval) (e : exn) :
  inputs_present event →
  (∀ c, e ≠ ClientError c) →
  db (dict_get event "requests_table") = Raise e →
  lambda_handler db event = Raise e.
Proof.
  intros Hin Hne Hdb. unfold lambda_handler.
  rewrite (required_keys_truthy _ Hin). simpl.
  unfold scan. rewrite Hdb. simpl.
  destruct e; try reflexivity. by destruct (Hne e).
Qed.



(** C2, at an input where the code breaks it. The five inputs are
    present and the scan fails with botocore's [EndpointConnectionError],
    which is not a [ClientError]: the handler raises it instead of
    returning [hasOverlappingSessions = False] with an error. *)
Lemma fail_open_counterexample :
  inputs_present guard_event
  ∧ requests_unreachable (dict_get guard_event "requests_table")
    = Raise endpoint_unreachable
  ∧ lambda_handler requests_unreachable guard_event = Raise endpoint_unreachable
  ∧ ¬ ∃ res, lambda_handler requests_unreachable guard_event = Return res.
Proof.
  split; [exact guard_event_present|].
  split; [reflexivity|].
  assert (lambda_handler requests_unreachable guard_event
          = Raise endpoint_unreachable) as Heq.
  { apply lambda_handler_raises;
      [exact guard_event_present | discriminate | reflexivity]. }
  split; [exact Heq|].
  intros [res Hres]. rewrite Heq in Hres. discriminate.
Qed.

(** C7. When any of the five inputs is absent or empty, the guard returns
    [hasOverlappingSessions = False] with the error "Missing required
    parameters", whatever the store would do. *)
Theorem missing_input (db : dynamodb) (event : gmap string pyval) (k : string) :
  k ∈ required_keys →
  absent_or_empty event k →
  lambda_handler db event =
    Return {[ "hasOverlappingSessions" := PBool false;
              "error" := PStr "Missing required parameters" ]}.
Proof.
  intros Hk Hmiss. apply absent_or_empty_falsy in Hmiss.
  unfold lambda_handler, all. simpl.
  unfold required_keys in Hk.
  repeat (apply elem_of_cons in Hk as [-> | Hk]);
    [rewrite Hmiss, ?andb_false_r; reflexivity .. | by apply elem_of_nil in Hk].
Qed.

Lemma missing_input_witness :
  "email" ∈ required_keys
  ∧ absent_or_empty guard_event_no_email "email"
  ∧ lambda_handler requests_one_other guard_event_no_email =
      Return {[ "hasOverlappingSessions" := PBool false;
                "error" := PStr "Missing required parameters" ]}.
Proof.
  assert ("email" ∈ required_keys) as Hk
    by (unfold required_keys; do 2 right; left).
  assert (absent_or_empty guard_event_no_email "email") as Hmiss
    by (left; reflexivity).
  split; [exact Hk|]. split; [exact Hmiss|].
  exact (missing_input requests_one_other guard_event_no_email "email" Hk Hmiss).
Defined.

(** C8, at inputs where the code breaks it. An event without its email,
    and a scan answered with a [ClientError]: the handler returns a
    result in both cases, and neither result has [overlappingCount]. *)
Lemma count_counterexample :
  (∃ res, lambda_handler requests_one_other guard_event_no_email = Return res
          ∧ res !! "overlappingCount" = None)
  ∧ (∃ res, lambda_handler requests_denied guard_event = Return res
            ∧ res !! "overlappingCount" = None).
Proof.
  split; eexists; (split; [vm_compute; reflexivity | vm_compute; reflexivity]).
Qed.

End GuardFacts.

(** ** The aggregator *)

Module EntitlementFacts.
Import Entitlement Scenarios.

(** The end-to-end scenario of the specification. *)
Example handler_end_to_end :
  invoke end_to_end (request_event "u1" ["g1"]) = Return end_to_end_result.
Proof. vm_compute. reflexivity. Qed.

(** The limit of 4300 digits on both conversions. *)
Example int_str_limit :
  int (PStr (ones 4301))
    = Raise (ValueError "Exceeds the limit (4300 digits) for integer string conversion")
  ∧ str_of_int (str_limit - 1) = Return (str (str_limit - 1))
  ∧ str_of_int str_limit
    = Raise (ValueError "Exceeds the limit (4300 digits) for integer string conversion").
Proof.
  split; [vm_compute; reflexivity|].
  unfold str_of_int.
  assert ((str_limit <=? Z.abs (str_limit - 1)) = false) as ->
    by (apply Z.leb_gt; unfold str_limit; lia).
  assert ((str_limit <=? Z.abs str_limit) = true) as ->
    by (apply Z.leb_le; unfold str_limit; lia).
  split; reflexivity.
Qed.

(** [int] and [str] on some literals. *)
Example int_literals :
  int (PStr "10") = Return 10 ∧ int (PStr " 7 ") = Return 7
  ∧ int (PStr "-3") = Return (-3) ∧ int (PStr "1_000") = Return 1000
  ∧ int (PStr "") = Raise (ValueError "invalid literal for int() with base 10")
  ∧ int (PStr "1h") = Raise (ValueError "invalid literal for int() with base 10")
  ∧ str 0 = "0" ∧ str 12 = "12".
Proof. repeat split; vm_compute; reflexivity. Qed.

(** *** OU expansion *)

Lemma account_entry_id (acct : org_account) :
  account_entry acct !! "id" = Some (PStr (Id acct)).
Proof.
  unfold account_entry.
  rewrite lookup_insert_ne; [apply lookup_singleton_eq | done].
Qed.

Lemma visit_account_filter (env : aws) (mgmt_account_id : option string)
    (account : list (gmap string pyval)) (acct : org_account) :
  visit_account (bool_decide (Some (ACCOUNT_ID env) = mgmt_account_id))
    mgmt_account_id account acct
  = account ++
      (account_entry <$> filter (λ a, ¬ excluded env mgmt_account_id a) [acct]).
Proof.
  unfold visit_account.
  destruct (decide (excluded env mgmt_account_id acct)) as [Hex|Hkeep].
  - rewrite filter_cons_False, filter_nil; [|tauto].
    destruct Hex as [Hm Hdep].
    rewrite (bool_decide_eq_false_2 _ Hdep); simpl.
    rewrite bool_decide_eq_true_2 by done. simpl. by rewrite app_nil_r.
  - rewrite filter_cons_True, filter_nil; [|done].
    unfold excluded in Hkeep.
    repeat case_bool_decide; simpl; try reflexivity.
    destruct Hkeep. by split.
Qed.

Lemma visit_page_filter (env : aws) (mgmt_account_id : option string)
    (page : list org_account) (account : list (gmap string pyval)) :
  fold_left (visit_account (bool_decide (Some (ACCOUNT_ID env) = mgmt_account_id))
               mgmt_account_id) page account
  = account ++
      (account_entry <$> filter (λ a, ¬ excluded env mgmt_account_id a) page).
Proof.
  revert account. induction page as [|acct page IH]; intros account; simpl.
  - by rewrite app_nil_r.
  - rewrite IH, visit_account_filter, <- app_assoc, <- fmap_app, <- filter_app.
    reflexivity.
Qed.

Lemma visit_pages_filter (env : aws) (mgmt_account_id : option string)
    (pages : list (list org_account)) (account : list (gmap string pyval)) :
  visit_pages (bool_decide (Some (ACCOUNT_ID env) = mgmt_account_id))
    mgmt_account_id (Return <$> pages) account
  = Return (account ++
      (account_entry <$>
         filter (λ a, ¬ excluded env mgmt_account_id a) (concat pages))).
Proof.
  revert account. induction pages as [|page pages IH]; intros account; simpl.
  - by rewrite app_nil_r.
  - rewrite IH, visit_page_filter, <- app_assoc, <- fmap_app, <- filter_app.
    reflexivity.
Qed.

Lemma list_account_for_ou_filter (env : aws) (mgmt_account_id : option string)
    (ouId : pyval) (pages : list (list org_account)) :
  list_accounts_for_parent env ouId = Return <$> pages →
  list_account_for_ou env mgmt_account_id ouId
  = Return (Some (account_entry <$>
       filter (λ a, ¬ excluded env mgmt_account_id a) (concat pages))).
Proof.
  intros Hpages. unfold list_account_for_ou.
  rewrite Hpages, visit_pages_filter. reflexivity.
Qed.

(** C6. An expansion whose pages all arrive returns the entries of the
    member accounts in their order, without those that are the management
    account while the deployment account is another one: a member is left
    out exactly in that case, and when the deployment account is the
    management account every member is returned. *)
Theorem ou_expansion (env : aws) (mgmt_account_id : option string)
    (ouId : pyval) (pages : list (list org_account)) :
  list_accounts_for_parent env ouId = Return <$> pages →
  ∃ returned : list (gmap string pyval),
    list_account_for_ou env mgmt_account_id ouId = Return (Some returned)
    ∧ returned = account_entry <$>
        filter (λ a, ¬ excluded env mgmt_account_id a) (concat pages)
    ∧ (∀ acct, acct ∈ concat pages →
         (account_entry acct ∉ returned ↔
            mgmt_account_id = Some (Id acct)
            ∧ Some (ACCOUNT_ID env) ≠ mgmt_account_id))
    ∧ (Some (ACCOUNT_ID env) = mgmt_account_id →
         returned = account_entry <$> concat pages).
Proof.
  intros Hpages. eexists.
  split; [by apply list_account_for_ou_filter|].
  split; [reflexivity|].
  split.
  - intros acct Hacct. fold (excluded env mgmt_account_id acct). split.
    + intros Hnot. destruct (decide (excluded env mgmt_account_id acct)) as [|Hk];
        [done|].
      destruct Hnot. apply list_elem_of_fmap. exists acct.
      split; [reflexivity|]. by apply list_elem_of_filter.
    + intros Hex Hin. apply list_elem_of_fmap in Hin as (a & Heq & Ha).
      apply list_elem_of_filter in Ha as [Hkeep _]. apply Hkeep.
      assert (Id a = Id acct) as Hid.
      { apply (f_equal (λ d : gmap string pyval, d !! "id")) in Heq.
        rewrite !account_entry_id in Heq. congruence. }
      unfold excluded in *. by rewrite Hid.
  - intros Hdep. f_equal.
    induction (concat pages) as [|a l IH]; [reflexivity|].
    rewrite filter_cons_True, IH; [reflexivity|].
    unfold excluded. tauto.
Qed.

Lemma ou_expansion_witness :
  list_accounts_for_parent mgmt_ou (PStr "ou-1") = Return <$> [mgmt_and_a1]
  ∧ ∃ returned : list (gmap string pyval),
      list_account_for_ou mgmt_ou (Some "000000000000") (PStr "ou-1")
        = Return (Some returned)
      ∧ returned = account_entry <$>
          filter (λ a, ¬ excluded mgmt_ou (Some "000000000000") a)
            (concat [mgmt_and_a1])
      ∧ (∀ acct, acct ∈ concat [mgmt_and_a1] →
           (account_entry acct ∉ returned ↔
              Some "000000000000" = Some (Id acct)
              ∧ Some (ACCOUNT_ID mgmt_ou) ≠ Some "000000000000"))
      ∧ (Some (ACCOUNT_ID mgmt_ou) = Some "000000000000" →
           returned = account_entry <$> concat [mgmt_and_a1]).
Proof.
  split; [reflexivity|].
  apply (ou_expansion mgmt_ou (Some "000000000000") (PStr "ou-1") [mgmt_and_a1]).
  reflexivity.
Defined.

(** The example of the specification: the OU holds the management account
    and [a1], and the deployment account is not the management account. *)
Example list_account_for_ou_not_in_mgmt :
  list_account_for_ou mgmt_ou (Some "000000000000") (PStr "ou-1")
  = Return (Some [ {[ "name" := PStr "a1"; "id" := PStr "a1" ]} ]).
Proof. vm_compute. reflexivity. Qed.

(** The same OU seen from the management account. *)
Example list_account_for_ou_in_mgmt :
  list_account_for_ou mgmt_ou (Some "999999999999") (PStr "ou-1")
  = Return (Some (account_entry <$> mgmt_and_a1)).
Proof. vm_compute. reflexivity. Qed.

(** *** The loop over the items *)

Lemma ltb_max (m d : Z) : (if m <? d then d else m) = Z.max m d.
Proof. destruct (Z.ltb_spec m d); lia. Qed.

Lemma process_item_inv (env : aws) (mgmt_account_id : option string)
    (m : Z) (el : list policy) (it : item) (st' : Z * list policy) :
  process_item env mgmt_account_id (m, el) it = Return st' →
  ∃ d accs,
    int (default (PStr "0") (item_duration it)) = Return d
    ∧ expand_ous env mgmt_account_id (default [] (item_ous it))
        (default [] (item_accounts it)) = Return accs
    ∧ st' = (Z.max m d,
             el ++ [ {| accounts := accs;
                        permissions := default [] (item_permissions it);
                        approvalRequired :=
                          default (PBool true) (item_approvalRequired it);
                        duration :=
                          default (PStr (str (Z.max m d))) (item_duration it) |} ]).
Proof.
  unfold process_item.
  destruct (int _) as [d|e]; simpl; [|discriminate].
  destruct (expand_ous _ _ _ _) as [accs|e]; simpl; [|discriminate].
  unfold str_of_int. destruct (str_limit <=? _); simpl; [discriminate|].
  intros [= <-]. exists d, accs. by rewrite ltb_max.
Qed.

Lemma process_items_app (env : aws) (mgmt_account_id : option string)
    (st : Z * list policy) (l1 l2 : list item) :
  process_items env mgmt_account_id st (l1 ++ l2)
  = (process_items env mgmt_account_id st l1
       ≫= λ st1, process_items env mgmt_account_id st1 l2).
Proof.
  revert st. induction l1 as [|it l1 IH]; intros st; simpl; [reflexivity|].
  destruct (process_item env mgmt_account_id st it) as [st1|e]; simpl;
    [apply IH | reflexivity].
Qed.

Lemma duration_of_int (it : item) (d : Z) :
  int (default (PStr "0") (item_duration it)) = Return d → duration_of it = d.
Proof. unfold duration_of. by intros ->. Qed.

Lemma running_max_snoc (m : Z) (l : list item) (it : item) :
  running_max m (l ++ [it]) = Z.max (running_max m l) (duration_of it).
Proof. unfold running_max. by rewrite fold_left_app. Qed.

Lemma running_max_ge (m : Z) (l : list item) : m ≤ running_max m l.
Proof.
  revert m. induction l as [|it l IH]; intros m; simpl; [reflexivity|].
  unfold running_max in *. simpl. etrans; [|apply IH]. lia.
Qed.

(** After a run of the loop, [maxDuration] is the running maximum and
    [eligibility] has one more entry per item. *)
Lemma process_items_state (env : aws) (mgmt_account_id : option string)
    (st st' : Z * list policy) (l : list item) :
  process_items env mgmt_account_id st l = Return st' →
  st'.1 = running_max st.1 l
  ∧ ∃ ps, st'.2 = st.2 ++ ps ∧ length ps = length l.
Proof.
  revert st. induction l as [|it l IH]; intros [m el]; simpl.
  - intros [= <-]. split; [reflexivity|]. exists []. by rewrite app_nil_r.
  - intros H. apply bind_Return_inv in H as (st1 & Hit & Hl).
    apply process_item_inv in Hit as (d & accs & Hd & _ & ->).
    apply IH in Hl as (Hm & ps & Hps & Hlen). simpl in *.
    split.
    + rewrite Hm. unfold running_max. simpl. by rewrite (duration_of_int _ _ Hd).
    + eexists (_ :: ps). rewrite Hps, <- app_assoc. simpl.
      split; [reflexivity | by rewrite Hlen].
Qed.

(** The entry the loop appends for the item at a position. *)
Lemma process_items_entry (env : aws) (mgmt_account_id : option string)
    (st' : Z * list policy) (pre post : list item) (it : item) :
  process_items env mgmt_account_id (0, []) (pre ++ it :: post) = Return st' →
  ∃ d accs,
    int (default (PStr "0") (item_duration it)) = Return d
    ∧ expand_ous env mgmt_account_id (default [] (item_ous it))
        (default [] (item_accounts it)) = Return accs
    ∧ st'.2 !! length pre =
        Some {| accounts := accs;
                permissions := default [] (item_permissions it);
                approvalRequired := default (PBool true) (item_approvalRequired it);
                duration :=
                  default (PStr (str (Z.max (running_max 0 pre) d)))
                    (item_duration it) |}.
Proof.
  rewrite process_items_app. intros H.
  apply bind_Return_inv in H as ([m1 el1] & Hpre & H). simpl in H.
  apply bind_Return_inv in H as (st2 & Hit & Hpost).
  apply process_items_state in Hpre as (Hm1 & ps1 & Hel1 & Hlen1).
  simpl in Hm1, Hel1. subst m1 el1.
  apply process_item_inv in Hit as (d & accs & Hd & Hacc & ->).
  apply process_items_state in Hpost as (_ & ps3 & Hel & _). simpl in Hel.
  exists d, accs. split; [done|]. split; [done|].
  rewrite Hel, <- app_assoc. simpl.
  by apply list_lookup_middle.
Qed.

(** The loop over the identities runs the loop over the items on the
    policies of the identity set. *)
Lemma process_ids_resolve (env : aws) (mgmt_account_id : option string)
    (ids : list pyval) (st st' : Z * list policy) :
  process_ids env mgmt_account_id st ids = Return st' →
  ∃ items, resolve env ids = Return items
           ∧ process_items env mgmt_account_id st items = Return st'.
Proof.
  revert st. induction ids as [|id ids IH]; intros st; simpl.
  - intros [= <-]. by exists [].
  - destruct (negb (truthy id)); [apply IH|].
    destruct (get_entitlements env id) as [[its]|e]; simpl; [|discriminate].
    destruct its as [|it its].
    + intros H. apply IH in H as (items & -> & Hitems). by exists items.
    + intros H. apply bind_Return_inv in H as (st1 & Hits & Hids).
      apply IH in Hids as (items & -> & Hitems). simpl.
      exists ((it :: its) ++ items). split; [reflexivity|].
      rewrite process_items_app, Hits. exact Hitems.
Qed.

Lemma aggregate_entry (env : aws) (mgmt_account_id : option string)
    (ev : event) (res : result) (pre post : list item) (it : item) :
  aggregate env mgmt_account_id ev = Return res →
  resolve env (ev_userId ev :: ev_groupIds ev) = Return (pre ++ it :: post) →
  ∃ d accs,
    int (default (PStr "0") (item_duration it)) = Return d
    ∧ expand_ous env mgmt_account_id (default [] (item_ous it))
        (default [] (item_accounts it)) = Return accs
    ∧ res_policy res !! length pre =
        Some {| accounts := accs;
                permissions := default [] (item_permissions it);
                approvalRequired := default (PBool true) (item_approvalRequired it);
                duration :=
                  default (PStr (str (Z.max (running_max 0 pre) d)))
                    (item_duration it) |}.
Proof.
  unfold aggregate. intros H Hres.
  apply bind_Return_inv in H as ([m el] & Hids & [= <-]).
  apply process_ids_resolve in Hids as (items & Hitems & Hproc).
  rewrite Hres in Hitems. injection Hitems as <-.
  apply process_items_entry in Hproc. exact Hproc.
Qed.

(** The output has one entry per policy of the identity set. *)
Lemma aggregate_length (env : aws) (mgmt_account_id : option string)
    (ev : event) (res : result) (items : list item) :
  aggregate env mgmt_account_id ev = Return res →
  resolve env (ev_userId ev :: ev_groupIds ev) = Return items →
  length (res_policy res) = length items.
Proof.
  unfold aggregate. intros H Hres.
  apply bind_Return_inv in H as ([m el] & Hids & [= <-]).
  apply process_ids_resolve in Hids as (items' & Hitems & Hproc).
  rewrite Hres in Hitems. injection Hitems as <-.
  apply process_items_state in Hproc as (_ & ps & Hps & Hlen).
  simpl in *. by subst el.
Qed.

(** C5. An entry whose policy has no duration gets the string of the
    running maximum at its position in the sequence of resolved policies:
    the maximum over the policies before it, whatever the later ones
    hold. *)
Theorem default_duration (env : aws) (mgmt_account_id : option string)
    (ev : event) (res : result) (pre post : list item) (it : item) :
  aggregate env mgmt_account_id ev = Return res →
  resolve env (ev_userId ev :: ev_groupIds ev) = Return (pre ++ it :: post) →
  item_duration it = None →
  ∃ p, res_policy res !! length pre = Some p
       ∧ duration p = PStr (str (running_max 0 pre)).
Proof.
  intros Hagg Hres Hnone.
  destruct (aggregate_entry _ _ _ _ _ _ _ Hagg Hres) as (d & accs & Hd & _ & Hp).
  rewrite Hnone in Hd, Hp. simpl in Hd, Hp. injection Hd as <-.
  eexists. split; [exact Hp|]. simpl.
  pose proof (running_max_ge 0 pre). by rewrite Z.max_l by lia.
Qed.

Lemma default_duration_witness :
  aggregate A_then_B (Some "000000000000") (request_event "A" ["B"])
    = Return A_then_B_result
  ∧ resolve A_then_B [PStr "A"; PStr "B"] = Return ([policy_A] ++ policy_B :: [])
  ∧ item_duration policy_B = None
  ∧ ∃ p, res_policy A_then_B_result !! length [policy_A] = Some p
         ∧ duration p = PStr (str (running_max 0 [policy_A])).
Proof.
  assert (aggregate A_then_B (Some "000000000000") (request_event "A" ["B"])
          = Return A_then_B_result) as Hagg by (vm_compute; reflexivity).
  assert (resolve A_then_B (ev_userId (request_event "A" ["B"])
                              :: ev_groupIds (request_event "A" ["B"]))
          = Return ([policy_A] ++ policy_B :: [])) as Hres
    by (vm_compute; reflexivity).
  split; [exact Hagg|]. split; [exact Hres|]. split; [reflexivity|].
  exact (default_duration A_then_B (Some "000000000000") (request_event "A" ["B"])
           A_then_B_result [policy_A] [] policy_B Hagg Hres eq_refl).
Defined.

(** The example of the specification: the policy of [A] has duration 5,
    the policy of [B] has none, and the entry of [B] gets "5". *)
Example handler_A_then_B :
  invoke A_then_B (request_event "A" ["B"]) = Return A_then_B_result
  ∧ duration <$> res_policy A_then_B_result !! 1%nat = Some (PStr "5").
Proof. split; vm_compute; reflexivity. Qed.

(** In the other order the entry of [B] is processed first and gets "0". *)
Example handler_B_then_A :
  ∃ res, invoke A_then_B (request_event "B" ["A"]) = Return res
         ∧ duration <$> res_policy res = [PStr "0"; PStr "5"].
Proof. eexists. split; vm_compute; reflexivity. Qed.

(** *** Resolving the policies of an identity *)

Lemma filter_none {A} (P : A → Prop) `{∀ x, Decision (P x)} (l : list A) :
  (∀ x, x ∈ l → ¬ P x) → filter P l = [].
Proof.
  induction l as [|a l IH]; intros Hl; [reflexivity|].
  rewrite filter_cons_False by (apply Hl; left).
  apply IH. intros x Hx. apply Hl. by right.
Qed.

(** Among items with distinct ids, one id selects one item. *)
Lemma filter_same_id (its : list item) (p : item) :
  NoDup (item_id <$> its) → p ∈ its →
  filter (λ q, item_id q = item_id p) its = [p].
Proof.
  induction its as [|a its IH]; intros Hnd Hp; [by apply elem_of_nil in Hp|].
  rewrite fmap_cons in Hnd. apply NoDup_cons in Hnd as [Ha Hnd].
  apply elem_of_cons in Hp as [<- | Hp].
  - rewrite filter_cons_True by reflexivity. f_equal.
    apply filter_none. intros q Hq Heq. apply Ha.
    rewrite <- Heq. by apply list_elem_of_fmap_2.
  - rewrite filter_cons_False; [by apply IH|].
    intros Heq. apply Ha. rewrite Heq. by apply list_elem_of_fmap_2.
Qed.

Lemma existsb_same_id (its : list item) (p old : item) :
  p ∈ its → item_id p = item_id old →
  existsb (λ q, bool_decide (item_id q = item_id old)) its = true.
Proof.
  intros Hp Heq. apply existsb_exists. exists p.
  split; [by apply list_elem_of_In | by apply bool_decide_eq_true].
Qed.

(** When the index query returns a policy and the key lookup returns a
    record with the same id, [get_entitlements] returns the items of the
    index query and nothing more: with ids that are distinct in the index
    result, the record of that id occurs once in the result, and it is
    the copy of the index query. *)
Theorem dedup_first_seen (env : aws) (id : pyval) (its : list item)
    (old p : item) :
  policy_table_query env id = Return {| q_Items := Some its |} →
  policy_table_get_item env id = Return {| g_Item := Some old |} →
  p ∈ its →
  item_id p = item_id old →
  NoDup (item_id <$> its) →
  ∃ r, get_entitlements env id = Return r
       ∧ Items r = its
       ∧ filter (λ q, item_id q = item_id old) (Items r) = [p].
Proof.
  intros Hq Hg Hp Hid Hnd. unfold get_entitlements.
  rewrite Hq, Hg. simpl.
  rewrite (existsb_same_id its p old Hp Hid). simpl.
  eexists. split; [reflexivity|]. split; [reflexivity|]. simpl.
  rewrite <- Hid. by apply filter_same_id.
Qed.

Lemma dedup_first_seen_witness :
  policy_table_query both_paths (PStr "g2") = Return {| q_Items := Some [g2_policy] |}
  ∧ policy_table_get_item both_paths (PStr "g2") = Return {| g_Item := Some g2_policy |}
  ∧ g2_policy ∈ [g2_policy]
  ∧ item_id g2_policy = item_id g2_policy
  ∧ NoDup (item_id <$> [g2_policy])
  ∧ ∃ r, get_entitlements both_paths (PStr "g2") = Return r
         ∧ Items r = [g2_policy]
         ∧ filter (λ q, item_id q = item_id g2_policy) (Items r) = [g2_policy].
Proof.
  assert (g2_policy ∈ [g2_policy]) as Hp by left.
  assert (NoDup (item_id <$> [g2_policy])) as Hnd
    by (apply NoDup_singleton).
  split; [reflexivity|]. split; [reflexivity|]. split; [exact Hp|].
  split; [reflexivity|]. split; [exact Hnd|].
  exact (dedup_first_seen both_paths (PStr "g2") [g2_policy] g2_policy g2_policy
           eq_refl eq_refl Hp eq_refl Hnd).
Defined.

(** The merged result of that table has the policy once. *)
Example handler_both_paths :
  ∃ res, invoke both_paths (request_event "u1" ["g2"]) = Return res
         ∧ duration <$> res_policy res = [PStr "4"].
Proof. eexists. split; vm_compute; reflexivity. Qed.

(** A [ClientError] of either lookup is absorbed. *)
Lemma get_entitlements_ClientError (env : aws) (id : pyval) (e1 e2 : client_error) :
  policy_table_query env id = Raise (ClientError e1) →
  policy_table_get_item env id = Raise (ClientError e2) →
  get_entitlements env id = Return {| Items := [] |}.
Proof. intros Hq Hg. unfold get_entitlements. by rewrite Hq, Hg. Qed.

(** *** Publishing *)

Lemma post_policy_fails (env : aws) (res : result) :
  publish_fails env res →
  post_policy env res = Return ["Error with Query"]
  ∨ post_policy env res = Return ["Error attempting to query AppSync"].
Proof.
  unfold post_policy. intros [[e ->] | [errs ->]]; [by left | by right].
Qed.

Lemma publishPolicy_returns (env : aws) (res : result) :
  is_Some (get_credentials env) → publishPolicy env res = Return res.
Proof.
  intros [c Hc]. unfold publishPolicy, post_policy. rewrite Hc.
  destruct (requests_post env res) as [[[errs|]]|e]; reflexivity.
Qed.

Lemma publishPolicy_inv (env : aws) (res res' : result) :
  publishPolicy env res = Return res' → res' = res.
Proof.
  unfold publishPolicy. destruct (get_credentials env); [|discriminate].
  intros H. apply bind_Return_inv in H as (_ & _ & H). congruence.
Qed.

(** C9. When the request to AppSync raises, or its response has errors,
    the handler still returns the result it aggregated; the try block
    only prints. *)
Theorem publish_failure (env : aws) (mgmt_account_id : option string)
    (ev : event) (res : result) :
  aggregate env mgmt_account_id ev = Return res →
  is_Some (get_credentials env) →
  publish_fails env res →
  handler env mgmt_account_id ev = Return res
  ∧ (post_policy env res = Return ["Error with Query"]
     ∨ post_policy env res = Return ["Error attempting to query AppSync"]).
Proof.
  intros Hagg Hcred Hfail. split; [|by apply post_policy_fails].
  unfold handler. rewrite Hagg. simpl. by apply publishPolicy_returns.
Qed.

Lemma publish_failure_witness :
  aggregate sink_unreachable (Some "000000000000") (request_event "u1" ["g1"])
    = Return end_to_end_result
  ∧ is_Some (get_credentials sink_unreachable)
  ∧ publish_fails sink_unreachable end_to_end_result
  ∧ handler sink_unreachable (Some "000000000000") (request_event "u1" ["g1"])
      = Return end_to_end_result
  ∧ (post_policy sink_unreachable end_to_end_result = Return ["Error with Query"]
     ∨ post_policy sink_unreachable end_to_end_result
       = Return ["Error attempting to query AppSync"]).
Proof.
  assert (aggregate sink_unreachable (Some "000000000000")
            (request_event "u1" ["g1"]) = Return end_to_end_result) as Hagg
    by (vm_compute; reflexivity).
  assert (is_Some (get_credentials sink_unreachable)) as Hcred
    by (eexists; reflexivity).
  assert (publish_fails sink_unreachable end_to_end_result) as Hfail
    by (left; eexists; reflexivity).
  split; [exact Hagg|]. split; [exact Hcred|]. split; [exact Hfail|].
  exact (publish_failure sink_unreachable (Some "000000000000")
           (request_event "u1" ["g1"]) end_to_end_result Hagg Hcred Hfail).
Defined.

(** The same with a response that carries GraphQL errors. *)
Example handler_sink_rejects :
  invoke sink_rejects (request_event "u1" ["g1"]) = Return end_to_end_result
  ∧ post_policy sink_rejects end_to_end_result
    = Return ["Error attempting to query AppSync"].
Proof. split; vm_compute; reflexivity. Qed.

(** *** Errors of the directory *)

Lemma expand_ous_incl (env : aws) (mgmt_account_id : option string)
    (ous accounts accs : list (gmap string pyval)) :
  expand_ous env mgmt_account_id ous accounts = Return accs →
  ∀ x, x ∈ accounts → x ∈ accs.
Proof.
  revert accounts. induction ous as [|ou ous IH]; intros accounts; simpl.
  - by intros [= <-].
  - intros H x Hx.
    apply bind_Return_inv in H as (ouId & _ & H).
    apply bind_Return_inv in H as (data & _ & H).
    apply bind_Return_inv in H as (accounts' & Hext & H).
    apply (IH _ H). destruct data as [l|]; [|discriminate].
    injection Hext as <-. apply elem_of_app. by left.
Qed.

(** The accounts of every OU of the item are in the entry's accounts. *)
Lemma expand_ous_member (env : aws) (mgmt_account_id : option string)
    (ous accounts accs : list (gmap string pyval)) (ou : gmap string pyval)
    (ouId : pyval) (l : list (gmap string pyval)) :
  expand_ous env mgmt_account_id ous accounts = Return accs →
  ou ∈ ous → ou !! "id" = Some ouId →
  list_account_for_ou env mgmt_account_id ouId = Return (Some l) →
  ∀ x, x ∈ l → x ∈ accs.
Proof.
  revert accounts. induction ous as [|ou' ous IH]; intros accounts; simpl.
  - intros _ Hou. by apply elem_of_nil in Hou.
  - intros H Hou Hid Hl x Hx.
    apply bind_Return_inv in H as (ouId' & Hsub & H).
    apply bind_Return_inv in H as (data & Hdata & H).
    apply bind_Return_inv in H as (accounts' & Hext & H).
    apply elem_of_cons in Hou as [<- | Hou].
    + unfold subscript in Hsub. rewrite Hid in Hsub. injection Hsub as <-.
      rewrite Hl in Hdata. injection Hdata as <-. injection Hext as <-.
      apply (expand_ous_incl _ _ _ _ _ H), elem_of_app. by right.
    + by apply (IH _ H).
Qed.

(** An expansion that a [ClientError] interrupts returns [None]. *)
Lemma list_account_for_ou_ClientError (env : aws) (mgmt_account_id : option string)
    (ouId : pyval) (pages : list (list org_account)) (e : client_error)
    (rest : list (outcome (list org_account))) :
  list_accounts_for_parent env ouId = (Return <$> pages) ++ Raise (ClientError e) :: rest →
  list_account_for_ou env mgmt_account_id ouId = Return None.
Proof.
  intros Hpages. unfold list_account_for_ou. rewrite Hpages.
  assert (∀ d account,
            visit_pages d mgmt_account_id
              ((Return <$> pages) ++ Raise (ClientError e) :: rest) account
            = Raise (ClientError e)) as ->; [|reflexivity].
  clear Hpages. intros d.
  induction pages as [|page pages IH]; intros account; simpl;
    [reflexivity | apply IH].
Qed.

(** C3, at an input where the code breaks it. The listing of [ou-1]
    answers with a [ClientError]: [list_account_for_ou] catches it and
    returns [None], and the handler then raises [TypeError] from
    [extend] instead of returning an aggregate. *)
Theorem ou_error_aborts :
  list_account_for_ou directory_denied (Some "000000000000") (PStr "ou-1")
    = Return None
  ∧ invoke directory_denied (request_event "u1" ["g1"])
    = Raise (TypeError "'NoneType' object is not iterable").
Proof. split; vm_compute; reflexivity. Qed.

(** C10. When [describe_organization] answers with a [ClientError] at
    load time, [mgmt_account_id] is [None]; every expansion then returns
    all the members of the OU, and every member of an OU of a resolved
    policy, the management account included, is among the accounts of
    that policy's entry in the handler's result. *)
Theorem mgmt_lookup_failure (env : aws) (e : client_error) :
  describe_organization env = Raise (ClientError e) →
  get_mgmt_account_id env = Return None
  ∧ (∀ ouId pages,
       list_accounts_for_parent env ouId = Return <$> pages →
       list_account_for_ou env None ouId
       = Return (Some (account_entry <$> concat pages)))
  ∧ (∀ ev res pre it post ou ouId pages acct,
       invoke env ev = Return res →
       resolve env (ev_userId ev :: ev_groupIds ev) = Return (pre ++ it :: post) →
       ou ∈ default [] (item_ous it) →
       ou !! "id" = Some ouId →
       list_accounts_for_parent env ouId = Return <$> pages →
       acct ∈ concat pages →
       ∃ p, res_policy res !! length pre = Some p
            ∧ account_entry acct ∈ accounts p).
Proof.
  intros Horg.
  assert (get_mgmt_account_id env = Return None) as Hmgmt
    by (unfold get_mgmt_account_id; by rewrite Horg).
  assert (∀ ouId pages,
            list_accounts_for_parent env ouId = Return <$> pages →
            list_account_for_ou env None ouId
            = Return (Some (account_entry <$> concat pages))) as Hall.
  { intros ouId pages Hpages.
    rewrite (list_account_for_ou_filter _ _ _ _ Hpages). do 3 f_equal.
    induction (concat pages) as [|a l IH]; [reflexivity|].
    rewrite filter_cons_True, IH; [reflexivity|].
    unfold excluded. intros [? _]. discriminate. }
  split; [exact Hmgmt|]. split; [exact Hall|].
  intros ev res pre it post ou ouId pages acct Hinv Hres Hou Hid Hpages Hacct.
  unfold invoke in Hinv. rewrite Hmgmt in Hinv. simpl in Hinv.
  unfold handler in Hinv.
  apply bind_Return_inv in Hinv as (res' & Hagg & Hpub).
  apply publishPolicy_inv in Hpub as ->.
  destruct (aggregate_entry _ _ _ _ _ _ _ Hagg Hres) as (d & accs & _ & Hexp & Hp).
  eexists. split; [exact Hp|]. simpl.
  apply (expand_ous_member _ _ _ _ _ _ _ _ Hexp Hou Hid (Hall _ _ Hpages)).
  by apply list_elem_of_fmap_2.
Qed.

Lemma mgmt_lookup_failure_witness :
  describe_organization mgmt_unknown = Raise (ClientError org_denied)
  ∧ get_mgmt_account_id mgmt_unknown = Return None
  ∧ (∀ ouId pages,
       list_accounts_for_parent mgmt_unknown ouId = Return <$> pages →
       list_account_for_ou mgmt_unknown None ouId
       = Return (Some (account_entry <$> concat pages)))
  ∧ (∀ ev res pre it post ou ouId pages acct,
       invoke mgmt_unknown ev = Return res →
       resolve mgmt_unknown (ev_userId ev :: ev_groupIds ev)
         = Return (pre ++ it :: post) →
       ou ∈ default [] (item_ous it) →
       ou !! "id" = Some ouId →
       list_accounts_for_parent mgmt_unknown ouId = Return <$> pages →
       acct ∈ concat pages →
       ∃ p, res_policy res !! length pre = Some p
            ∧ account_entry acct ∈ accounts p).
Proof.
  split; [reflexivity|].
  exact (mgmt_lookup_failure mgmt_unknown org_denied eq_refl).
Defined.

(** With the lookup failed, the management account of the OU of [g1]'s
    policy is among the accounts the handler returns. *)
Example handler_mgmt_unknown :
  ∃ res, invoke mgmt_unknown (request_event "u1" ["g1"]) = Return res
         ∧ accounts <$> res_policy res
           = [ [ {[ "id" := PStr "acc1" ]};
                 {[ "name" := PStr "mgmt"; "id" := PStr "000000000000" ]};
                 {[ "name" := PStr "a1"; "id" := PStr "a1" ]} ] ].
Proof. eexists. split; vm_compute; reflexivity. Qed.

End EntitlementFacts.

(** ** More on the guard *)

Module GuardMore.
Import Guard Scenarios GuardFacts.

Lemma all_truthy_present (event : gmap string pyval) :
  all [dict_get event "requests_table"; dict_get event "id"; dict_get event "email";
       dict_get event "accountId"; dict_get event "roleId"] = true →
  inputs_present event.
Proof.
  unfold all, inputs_present, required_keys. simpl.
  rewrite !andb_true_iff. intros (? & ? & ? & ? & ? & _).
  repeat constructor; assumption.
Qed.

Lemma Return_inj {A} (a b : A) : Return a = Return b → a = b.
Proof. by intros [= ->]. Qed.

Lemma inputs_present_dec (event : gmap string pyval) :
  inputs_present event
  ∨ Exists (λ k, truthy (dict_get event k) = false) required_keys.
Proof.
  unfold inputs_present.
  destruct (decide (Forall (λ k, truthy (dict_get event k) = true) required_keys))
    as [H|H]; [by left|right].
  apply not_Forall_Exists in H; [|apply _].
  eapply Exists_impl; [exact H|]. simpl. intros k Hk.
  by destruct (truthy (dict_get event k)).
Qed.

(** The guard raises only what a scan raised that was not a [ClientError]:
    never on a missing input, and never a [ClientError]. *)
Theorem lambda_handler_Raise_iff (db : dynamodb) (event : gmap string pyval)
    (e : exn) :
  lambda_handler db event = Raise e
  ↔ inputs_present event
    ∧ db (dict_get event "requests_table") = Raise e
    ∧ ∀ c, e ≠ ClientError c.
Proof.
  split.
  - unfold lambda_handler.
    destruct (all _) eqn:Hall; simpl; [|discriminate].
    apply all_truthy_present in Hall.
    unfold scan.
    destruct (db (dict_get event "requests_table")) as [items|e'];
      simpl; [discriminate|].
    destruct e'; try discriminate; intros [= <-];
      (split; [exact Hall|]); (split; [reflexivity|]); discriminate.
  - intros (Hin & Hdb & Hne). by apply lambda_handler_raises.
Qed.

Lemma lambda_handler_Raise_iff_witness :
  lambda_handler requests_unreachable guard_event = Raise endpoint_unreachable.
Proof.
  apply (lambda_handler_Raise_iff requests_unreachable guard_event
           endpoint_unreachable).
  split; [exact guard_event_present|]. split; [reflexivity | discriminate].
Defined.

(** The result "Missing required parameters" is returned exactly when one
    of the five inputs is false as a Python value: absent, [None], the
    empty string, but also [0] or [False]. *)
Theorem missing_parameters_iff (db : dynamodb) (event : gmap string pyval) :
  lambda_handler db event =
    Return {[ "hasOverlappingSessions" := PBool false;
              "error" := PStr "Missing required parameters" ]}
  ↔ Exists (λ k, truthy (dict_get event k) = false) required_keys.
Proof.
  split.
  - intros Hres.
    destruct (inputs_present_dec event) as [Hin|Hex]; [|exact Hex].
    exfalso.
    destruct (db (dict_get event "requests_table")) as [items|e] eqn:Hdb.
    + rewrite (lambda_handler_scanned db event items Hin Hdb) in Hres.
      apply Return_inj in Hres.
      apply (f_equal (λ d : gmap string pyval, d !! "error")) in Hres.
      rewrite !lookup_insert_ne in Hres by done.
      rewrite lookup_singleton_ne, lookup_singleton_eq in Hres by done.
      discriminate.
    + destruct e as [c| | | | |];
        [| assert (∃ e', lambda_handler db event = Raise e') as [e' Hr]
             by (eexists; apply lambda_handler_raises;
                 [exact Hin | | exact Hdb]; discriminate);
           rewrite Hr in Hres; discriminate ..].
      rewrite (lambda_handler_ClientError db event c Hin Hdb) in Hres.
      apply Return_inj in Hres.
      apply (f_equal (λ d : gmap string pyval, d !! "error")) in Hres.
      rewrite !lookup_insert_ne in Hres by done.
      rewrite !lookup_singleton_eq in Hres.
      unfold str_ClientError in Hres. simpl in Hres. discriminate.
  - intros Hex. unfold lambda_handler.
    assert (all [dict_get event "requests_table"; dict_get event "id";
                 dict_get event "email"; dict_get event "accountId";
                 dict_get event "roleId"] = false) as ->; [|reflexivity].
    unfold required_keys in Hex. unfold all. simpl.
    rewrite !Exists_cons in Hex.
    destruct Hex as [-> | [-> | [-> | [-> | [-> | Hnil]]]]];
      rewrite ?andb_false_r; try reflexivity.
    by apply Exists_nil in Hnil.
Qed.

Lemma missing_parameters_iff_witness :
  lambda_handler requests_one_other (<["accountId" := PInt 0]> guard_event) =
    Return {[ "hasOverlappingSessions" := PBool false;
              "error" := PStr "Missing required parameters" ]}.
Proof.
  apply (missing_parameters_iff requests_one_other
           (<["accountId" := PInt 0]> guard_event)).
  unfold required_keys. do 3 right. left. reflexivity.
Defined.

End GuardMore.

(** ** More on the aggregator *)

Module EntitlementMore.
Import Entitlement Scenarios EntitlementFacts.

(** *** [get_entitlements] *)

Lemma existsb_other_id (its : list item) (old : item) :
  (∀ p, p ∈ its → item_id p ≠ item_id old) →
  existsb (λ q, bool_decide (item_id q = item_id old)) its = false.
Proof.
  intros Hne. apply not_true_is_false. intros Hex.
  apply existsb_exists in Hex as (p & Hp & Heq).
  apply bool_decide_eq_true in Heq. apply list_elem_of_In in Hp.
  by apply (Hne p Hp).
Qed.

(** A record found under the identity's own key, with an id that no item
    of the index query has, is appended after the items of the index. *)
Theorem legacy_policy_appended (env : aws) (id : pyval) (its : list item)
    (old : item) :
  policy_table_query env id = Return {| q_Items := Some its |} →
  policy_table_get_item env id = Return {| g_Item := Some old |} →
  (∀ p, p ∈ its → item_id p ≠ item_id old) →
  get_entitlements env id = Return {| Items := its ++ [old] |}.
Proof.
  intros Hq Hg Hne. unfold get_entitlements. rewrite Hq, Hg. simpl.
  by rewrite (existsb_other_id its old Hne).
Qed.

Lemma legacy_policy_appended_witness :
  get_entitlements new_and_old (PStr "g1")
  = Return {| Items := [g1_policy] ++ [g1_old_policy] |}.
Proof.
  apply (legacy_policy_appended new_and_old (PStr "g1") [g1_policy] g1_old_policy);
    [reflexivity | reflexivity |].
  intros p Hp. apply list_elem_of_singleton in Hp as ->. discriminate.
Defined.

(** When the index query is answered with a [ClientError], as in a
    deployment without the index, the result is what the key lookup
    finds. *)
Theorem index_failure_falls_back (env : aws) (id : pyval) (e : client_error)
    (response : get_item_response) :
  policy_table_query env id = Raise (ClientError e) →
  policy_table_get_item env id = Return response →
  get_entitlements env id = Return {| Items := option_list (g_Item response) |}.
Proof.
  intros Hq Hg. unfold get_entitlements. rewrite Hq, Hg. simpl.
  by destruct (g_Item response).
Qed.

Lemma index_failure_falls_back_witness :
  get_entitlements no_index (PStr "g2")
  = Return {| Items := option_list (Some g2_policy) |}.
Proof.
  exact (index_failure_falls_back no_index (PStr "g2") index_missing
           {| g_Item := Some g2_policy |} eq_refl eq_refl).
Defined.

(** When the key lookup is answered with a [ClientError], the result is
    what the index query returned. *)
Theorem key_failure_keeps_index (env : aws) (id : pyval) (e : client_error)
    (its : list item) :
  policy_table_query env id = Return {| q_Items := Some its |} →
  policy_table_get_item env id = Raise (ClientError e) →
  get_entitlements env id = Return {| Items := its |}.
Proof. intros Hq Hg. unfold get_entitlements. by rewrite Hq, Hg. Qed.

Lemma key_failure_keeps_index_witness :
  get_entitlements no_key_lookup (PStr "g1") = Return {| Items := [g1_policy] |}.
Proof.
  exact (key_failure_keeps_index no_key_lookup (PStr "g1") key_denied [g1_policy]
           eq_refl eq_refl).
Defined.

(** [get_entitlements] never raises a [ClientError]: what it raises is an
    exception of another class that one of its two lookups raised. *)
Theorem get_entitlements_Raise (env : aws) (id : pyval) (e : exn) :
  get_entitlements env id = Raise e →
  (∀ c, e ≠ ClientError c)
  ∧ (policy_table_query env id = Raise e ∨ policy_table_get_item env id = Raise e).
Proof.
  unfold get_entitlements.
  destruct (policy_table_query env id) as [[[its|]]|eq]; simpl.
  1,2: destruct (policy_table_get_item env id) as [[[old|]]|eg]; simpl;
    try discriminate;
    try (destruct (negb _); discriminate);
    destruct eg; try discriminate; intros [= <-];
    (split; [discriminate | by right]).
  destruct eq as [c| | | | |]; simpl.
  - destruct (policy_table_get_item env id) as [[[old|]]|eg]; simpl;
      try discriminate.
    destruct eg; try discriminate; intros [= <-];
      (split; [discriminate | by right]).
  - intros [= <-]. split; [discriminate | by left].
  - intros [= <-]. split; [discriminate | by left].
  - intros [= <-]. split; [discriminate | by left].
  - intros [= <-]. split; [discriminate | by left].
  - intros [= <-]. split; [discriminate | by left].
Qed.

Lemma get_entitlements_Raise_witness :
  get_entitlements table_unreachable (PStr "g1") = Raise endpoint_unreachable
  ∧ (∀ c, endpoint_unreachable ≠ ClientError c)
  ∧ (policy_table_query table_unreachable (PStr "g1") = Raise endpoint_unreachable
     ∨ policy_table_get_item table_unreachable (PStr "g1")
       = Raise endpoint_unreachable).
Proof.
  split; [reflexivity|].
  exact (get_entitlements_Raise table_unreachable (PStr "g1")
           endpoint_unreachable eq_refl).
Defined.

(** The ids of the returned items are distinct when those of the index
    query are. *)
Theorem get_entitlements_NoDup (env : aws) (id : pyval) (r : entitlements) :
  (∀ its, policy_table_query env id = Return {| q_Items := Some its |} →
          NoDup (item_id <$> its)) →
  get_entitlements env id = Return r →
  NoDup (item_id <$> Items r).
Proof.
  intros Hnd. unfold get_entitlements.
  assert (∀ (policies : list item) (o : outcome get_item_response),
            NoDup (item_id <$> policies) →
            (try_except_ClientError
               (response ← o;
                match g_Item response with
                | Some old_policy =>
                    if negb (existsb (λ p, bool_decide (item_id p = item_id old_policy))
                               policies)
                    then Return (policies ++ [old_policy])
                    else Return policies
                | None => Return policies
                end)
               (λ _, Return policies)
             ≫= λ policies, Return {| Items := policies |}) = Return r →
            NoDup (item_id <$> Items r)) as Hstep.
  { intros policies o Hp.
    destruct o as [[[old|]]|eg]; simpl.
    - destruct (existsb _ policies) eqn:Hex; simpl; intros [= <-]; simpl;
        [exact Hp|].
      rewrite fmap_app. simpl. apply NoDup_app. split; [exact Hp|].
      split; [|apply NoDup_singleton].
      intros x Hx Hx'. apply list_elem_of_singleton in Hx' as ->.
      apply list_elem_of_fmap in Hx as (p & Heq & Hin).
      apply not_true_iff_false in Hex. apply Hex, existsb_exists.
      exists p. split; [by apply list_elem_of_In|].
      by apply bool_decide_eq_true.
    - by intros [= <-].
    - destruct eg; try discriminate. by intros [= <-]. }
  destruct (policy_table_query env id) as [[[its|]]|eq].
  - intros H.
    apply (Hstep its (policy_table_get_item env id)); [by apply Hnd | exact H].
  - intros H.
    apply (Hstep [] (policy_table_get_item env id)); [constructor | exact H].
  - destruct eq; try discriminate. intros H.
    apply (Hstep [] (policy_table_get_item env id)); [constructor | exact H].
Qed.

Lemma get_entitlements_NoDup_witness :
  NoDup (item_id <$> Items {| Items := [g1_policy] ++ [g1_old_policy] |}).
Proof.
  apply (get_entitlements_NoDup new_and_old (PStr "g1")).
  - intros its [= <-]. vm_compute. apply NoDup_singleton.
  - vm_compute. reflexivity.
Defined.

(** *** [list_account_for_ou] *)

Lemma list_account_for_ou_ClientError_witness :
  list_account_for_ou second_page_denied (Some "000000000000") (PStr "ou-1")
  = Return None.
Proof.
  exact (list_account_for_ou_ClientError second_page_denied (Some "000000000000")
           (PStr "ou-1") [ [ {| Id := "acc2"; Name := "Account 2" |} ] ]
           ou_denied [] eq_refl).
Defined.

Lemma visit_pages_Raise (d : bool) (mgmt_account_id : option string)
    (pages : list (outcome (list org_account)))
    (account : list (gmap string pyval)) (e : exn) :
  visit_pages d mgmt_account_id pages account = Raise e → Raise e ∈ pages.
Proof.
  revert account. induction pages as [|[page|e'] pages IH]; intros account; simpl.
  - discriminate.
  - intros H. right. by apply (IH _ H).
  - intros [= <-]. left.
Qed.

(** [list_account_for_ou] never raises a [ClientError]: what it raises is
    an exception of another class that a page of the listing raised. *)
Theorem list_account_for_ou_Raise (env : aws) (mgmt_account_id : option string)
    (ouId : pyval) (e : exn) :
  list_account_for_ou env mgmt_account_id ouId = Raise e →
  (∀ c, e ≠ ClientError c) ∧ Raise e ∈ list_accounts_for_parent env ouId.
Proof.
  unfold list_account_for_ou.
  destruct (visit_pages _ _ _ _) as [account|e'] eqn:Hv; simpl; [discriminate|].
  apply visit_pages_Raise in Hv.
  destruct e'; try discriminate; intros [= <-]; (split; [discriminate | exact Hv]).
Qed.

Lemma list_account_for_ou_Raise_witness :
  list_account_for_ou directory_unreachable (Some "000000000000") (PStr "ou-1")
    = Raise endpoint_unreachable
  ∧ (∀ c, endpoint_unreachable ≠ ClientError c)
  ∧ Raise endpoint_unreachable
    ∈ list_accounts_for_parent directory_unreachable (PStr "ou-1").
Proof.
  split; [reflexivity|].
  exact (list_account_for_ou_Raise directory_unreachable (Some "000000000000")
           (PStr "ou-1") endpoint_unreachable eq_refl).
Defined.

(** The result of an expansion depends on the members the pages hold, not
    on how the listing is cut into pages. *)
Theorem pagination_independent (env env' : aws) (mgmt_account_id : option string)
    (ouId ouId' : pyval) (pages pages' : list (list org_account)) :
  ACCOUNT_ID env = ACCOUNT_ID env' →
  list_accounts_for_parent env ouId = Return <$> pages →
  list_accounts_for_parent env' ouId' = Return <$> pages' →
  concat pages = concat pages' →
  list_account_for_ou env mgmt_account_id ouId
  = list_account_for_ou env' mgmt_account_id ouId'.
Proof.
  intros Hacc Hp Hp' Hcat.
  rewrite (list_account_for_ou_filter _ _ _ _ Hp).
  rewrite (list_account_for_ou_filter _ _ _ _ Hp').
  rewrite Hcat. do 3 f_equal.
  apply list_filter_iff. intros a. unfold excluded. by rewrite Hacc.
Qed.

Lemma pagination_independent_witness :
  list_account_for_ou mgmt_ou (Some "000000000000") (PStr "ou-1")
  = list_account_for_ou mgmt_ou_paged (Some "000000000000") (PStr "ou-1").
Proof.
  exact (pagination_independent mgmt_ou mgmt_ou_paged (Some "000000000000")
           (PStr "ou-1") (PStr "ou-1") [mgmt_and_a1]
           [ [ {| Id := "000000000000"; Name := "mgmt" |} ];
             [ {| Id := "a1"; Name := "a1" |} ] ]
           eq_refl eq_refl eq_refl eq_refl).
Defined.

(** *** The accounts of an entry *)

(** When every OU of a policy has an id and the directory answers every
    listing, the accounts of the entry are the explicit accounts followed
    by the expansions of the OUs in their order; nothing is merged or
    removed. *)
Theorem expand_ous_concat (env : aws) (mgmt_account_id : option string)
    (ous : list (gmap string pyval)) (ouIds : list pyval)
    (members : pyval → list (list org_account))
    (accounts : list (gmap string pyval)) :
  Forall2 (λ ou i, ou !! "id" = Some i) ous ouIds →
  (∀ i, i ∈ ouIds → list_accounts_for_parent env i = Return <$> members i) →
  expand_ous env mgmt_account_id ous accounts
  = Return (accounts ++
      concat ((λ i, expansion env mgmt_account_id (concat (members i))) <$> ouIds)).
Proof.
  intros Hids. revert accounts.
  induction Hids as [|ou i ous ouIds Hid Hids IH]; intros accounts Hdir; simpl.
  - by rewrite app_nil_r.
  - unfold subscript. rewrite Hid. simpl.
    rewrite (list_account_for_ou_filter env mgmt_account_id i (members i))
      by (apply Hdir; left).
    simpl. rewrite IH by (intros j Hj; apply Hdir; by right).
    by rewrite <- app_assoc.
Qed.

Lemma expand_ous_concat_witness :
  expand_ous end_to_end (Some "000000000000") two_ou_policy
    [ {[ "id" := PStr "acc1" ]} ]
  = Return ([ {[ "id" := PStr "acc1" ]} ] ++
      concat ((λ i, expansion end_to_end (Some "000000000000")
                      (concat (ou1_members i)))
              <$> [PStr "ou-1"; PStr "ou-2"])).
Proof.
  apply (expand_ous_concat end_to_end (Some "000000000000") two_ou_policy
           [PStr "ou-1"; PStr "ou-2"] ou1_members).
  - unfold two_ou_policy. repeat constructor.
  - intros i Hi.
    apply elem_of_cons in Hi as [-> | Hi]; [reflexivity|].
    apply list_elem_of_singleton in Hi as ->. reflexivity.
Defined.

(** *** The handler *)

(** When the policies of the identity set resolve, the loop over the
    identities is the loop over those policies. *)
Lemma process_ids_of_resolve (env : aws) (mgmt_account_id : option string)
    (ids : list pyval) (items : list item) (st : Z * list policy) :
  resolve env ids = Return items →
  process_ids env mgmt_account_id st ids
  = process_items env mgmt_account_id st items.
Proof.
  revert items st. induction ids as [|id ids IH]; intros items st; simpl.
  - by intros [= <-].
  - destruct (negb (truthy id)); [apply IH|].
    destruct (get_entitlements env id) as [[its]|e]; simpl; [|discriminate].
    destruct (resolve env ids) as [rest|e]; simpl; [|discriminate].
    intros [= <-]. rewrite process_items_app.
    destruct its as [|it its]; [by apply IH|].
    destruct (process_items env mgmt_account_id st (it :: its)) as [st1|e];
      simpl; [by apply IH | reflexivity].
Qed.

Lemma expand_ous_prefix (env : aws) (mgmt_account_id : option string)
    (ous accounts accs : list (gmap string pyval)) :
  expand_ous env mgmt_account_id ous accounts = Return accs →
  accounts `prefix_of` accs.
Proof.
  revert accounts. induction ous as [|ou ous IH]; intros accounts; simpl.
  - by intros [= <-].
  - intros H.
    apply bind_Return_inv in H as (ouId & _ & H).
    apply bind_Return_inv in H as (data & _ & H).
    apply bind_Return_inv in H as (accounts' & Hext & H).
    destruct data as [l|]; [|discriminate]. injection Hext as <-.
    etrans; [|apply (IH _ H)]. by apply prefix_app_r.
Qed.

Lemma process_items_carries (env : aws) (mgmt_account_id : option string)
    (st st' : Z * list policy) (l : list item) :
  process_items env mgmt_account_id st l = Return st' →
  ∃ ps, st'.2 = st.2 ++ ps ∧ Forall2 carries l ps.
Proof.
  revert st. induction l as [|it l IH]; intros [m el]; simpl.
  - intros [= <-]. exists []. split; [by rewrite app_nil_r | constructor].
  - intros H. apply bind_Return_inv in H as (st1 & Hit & Hl).
    apply process_item_inv in Hit as (d & accs & Hd & Hacc & ->).
    apply IH in Hl as (ps & Hps & Hcar). simpl in Hps.
    eexists (_ :: ps). rewrite Hps, <- app_assoc. split; [reflexivity|].
    constructor; [|exact Hcar].
    repeat split; simpl.
    + by apply expand_ous_prefix in Hacc.
    + by intros v ->.
Qed.

Lemma aggregate_carries (env : aws) (mgmt_account_id : option string)
    (ev : event) (res : result) (items : list item) :
  aggregate env mgmt_account_id ev = Return res →
  resolve env (ev_userId ev :: ev_groupIds ev) = Return items →
  Forall2 carries items (res_policy res).
Proof.
  unfold aggregate. intros H Hres.
  rewrite (process_ids_of_resolve _ _ _ _ _ Hres) in H.
  apply bind_Return_inv in H as ([m el] & Hproc & [= <-]).
  apply process_items_carries in Hproc as (ps & Hps & Hcar).
  simpl in *. by subst el.
Qed.

Lemma resolve_app (env : aws) (ids1 ids2 : list pyval) :
  resolve env (ids1 ++ ids2)
  = (items1 ← resolve env ids1; items2 ← resolve env ids2;
     Return (items1 ++ items2)).
Proof.
  induction ids1 as [|id ids1 IH]; simpl.
  - by destruct (resolve env ids2).
  - destruct (negb (truthy id)); [exact IH|].
    destruct (get_entitlements env id) as [[its]|e]; simpl; [|reflexivity].
    rewrite IH.
    destruct (resolve env ids1) as [items1|e]; simpl; [|reflexivity].
    destruct (resolve env ids2) as [items2|e]; simpl; [|reflexivity].
    by rewrite app_assoc.
Qed.

(** C4, as the code has it. When the index query for an entity id
    returns a policy and the key lookup returns a record with the same
    id, the list resolved for that entity id is the list of the index
    items: it has the policy once, as the copy of the index query. The
    merged result has one entry per resolved policy of each identity of
    the set, in order; so when no other identity of the set resolves a
    policy of that id, and the entity id is not in the set a second time,
    one resolved policy has that id, it is the copy of the index query,
    and the entries of the result are those of the resolved policies. *)
Theorem dedup_once_per_identity (env : aws) (mgmt_account_id : option string)
    (ev : event) (res : result) (id : pyval) (its : list item) (old p : item)
    (before after : list pyval) (items_b items_a : list item) :
  policy_table_query env id = Return {| q_Items := Some its |} →
  policy_table_get_item env id = Return {| g_Item := Some old |} →
  p ∈ its →
  item_id p = item_id old →
  NoDup (item_id <$> its) →
  truthy id = true →
  ev_userId ev :: ev_groupIds ev = before ++ id :: after →
  resolve env before = Return items_b →
  resolve env after = Return items_a →
  (∀ q, q ∈ items_b ++ items_a → item_id q ≠ item_id old) →
  aggregate env mgmt_account_id ev = Return res →
  get_entitlements env id = Return {| Items := its |}
  ∧ filter (λ q, item_id q = item_id old) its = [p]
  ∧ resolve env (ev_userId ev :: ev_groupIds ev)
    = Return (items_b ++ its ++ items_a)
  ∧ filter (λ q, item_id q = item_id old) (items_b ++ its ++ items_a) = [p]
  ∧ Forall2 carries (items_b ++ its ++ items_a) (res_policy res).
Proof.
  intros Hq Hg Hp Hid Hnd Htruthy Hids Hb Ha Hother Hagg.
  assert (get_entitlements env id = Return {| Items := its |}) as Hget.
  { unfold get_entitlements. rewrite Hq, Hg. simpl.
    by rewrite (existsb_same_id its p old Hp Hid). }
  assert (filter (λ q, item_id q = item_id old) its = [p]) as Hits
    by (rewrite <- Hid; by apply filter_same_id).
  assert (resolve env (ev_userId ev :: ev_groupIds ev)
          = Return (items_b ++ its ++ items_a)) as Hres.
  { rewrite Hids, resolve_app, Hb. simpl. by rewrite Htruthy, Hget, Ha. }
  split; [exact Hget|]. split; [exact Hits|]. split; [exact Hres|].
  split; [|by apply (aggregate_carries env mgmt_account_id ev)].
  rewrite !filter_app, Hits.
  rewrite (filter_none _ items_b), (filter_none _ items_a); [reflexivity | |].
  - intros q Hq'. apply Hother, elem_of_app. by right.
  - intros q Hq'. apply Hother, elem_of_app. by left.
Qed.

Lemma dedup_once_per_identity_witness :
  get_entitlements both_paths (PStr "g2") = Return {| Items := [g2_policy] |}
  ∧ filter (λ q, item_id q = item_id g2_policy) [g2_policy] = [g2_policy]
  ∧ resolve both_paths [PStr "u1"; PStr "g2"] = Return ([] ++ [g2_policy] ++ [])
  ∧ filter (λ q, item_id q = item_id g2_policy) ([] ++ [g2_policy] ++ [])
    = [g2_policy]
  ∧ Forall2 carries ([] ++ [g2_policy] ++ []) (res_policy both_paths_result).
Proof.
  apply (dedup_once_per_identity both_paths (Some "000000000000")
           (request_event "u1" ["g2"]) both_paths_result (PStr "g2")
           [g2_policy] g2_policy g2_policy [PStr "u1"] [] [] []).
  - reflexivity.
  - reflexivity.
  - left.
  - reflexivity.
  - apply NoDup_singleton.
  - reflexivity.
  - reflexivity.
  - vm_compute. reflexivity.
  - reflexivity.
  - intros q Hq. by apply elem_of_nil in Hq.
  - vm_compute. reflexivity.
Defined.

(** C4, as stated, fails for the merged result: the policy of [g2] is
    found by the index query and by the key lookup, the list resolved for
    [g2] has it once, and with [g2] twice among the group ids the merged
    result has its entry twice. *)
Lemma dedup_counterexample :
  policy_table_query both_paths (PStr "g2") = Return {| q_Items := Some [g2_policy] |}
  ∧ policy_table_get_item both_paths (PStr "g2")
    = Return {| g_Item := Some g2_policy |}
  ∧ get_entitlements both_paths (PStr "g2") = Return {| Items := [g2_policy] |}
  ∧ invoke both_paths (request_event "u1" ["g2"; "g2"])
    = Return {| res_id := PStr "req-1"; res_policy := [g2_entry; g2_entry];
                res_username := PStr "ana" |}.
Proof. repeat split; vm_compute; reflexivity. Qed.

(** The output has one entry per resolved policy, in the order of the
    identities, and each entry carries its policy's permissions and
    approval flag (defaults [[]] and [True]), starts its accounts with the
    policy's explicit accounts, and keeps the policy's own duration. *)
Theorem entries_carry_policies (env : aws) (mgmt_account_id : option string)
    (ev : event) (res : result) (items : list item) :
  aggregate env mgmt_account_id ev = Return res →
  resolve env (ev_userId ev :: ev_groupIds ev) = Return items →
  Forall2 carries items (res_policy res)
  ∧ res_id res = ev_id ev ∧ res_username res = ev_username ev.
Proof.
  unfold aggregate. intros H Hres.
  rewrite (process_ids_of_resolve _ _ _ _ _ Hres) in H.
  apply bind_Return_inv in H as ([m el] & Hproc & [= <-]).
  apply process_items_carries in Hproc as (ps & Hps & Hcar).
  simpl in *. by subst el.
Qed.

Lemma entries_carry_policies_witness :
  Forall2 carries [g1_policy] (res_policy end_to_end_result)
  ∧ res_id end_to_end_result = ev_id (request_event "u1" ["g1"])
  ∧ res_username end_to_end_result = ev_username (request_event "u1" ["g1"]).
Proof.
  apply (entries_carry_policies end_to_end (Some "000000000000")
           (request_event "u1" ["g1"]) end_to_end_result [g1_policy]).
  - vm_compute. reflexivity.
  - vm_compute. reflexivity.
Defined.

(** Ids that are false as Python values, such as [None] and the empty
    string, are skipped: only the other ids of the identity set, in their
    order, determine the aggregate. *)
Theorem falsy_ids_skipped (env : aws) (mgmt_account_id : option string)
    (ev ev' : event) :
  ev_id ev = ev_id ev' →
  ev_username ev = ev_username ev' →
  List.filter truthy (ev_userId ev :: ev_groupIds ev)
  = List.filter truthy (ev_userId ev' :: ev_groupIds ev') →
  aggregate env mgmt_account_id ev = aggregate env mgmt_account_id ev'.
Proof.
  intros Hid Hname Hids. unfold aggregate. rewrite Hid, Hname.
  assert (∀ ids st, process_ids env mgmt_account_id st ids
                    = process_ids env mgmt_account_id st (List.filter truthy ids))
    as Hskip.
  { induction ids as [|id ids IH]; intros st; simpl; [reflexivity|].
    destruct (truthy id) eqn:Ht; simpl; [|apply IH].
    rewrite Ht. simpl.
    destruct (get_entitlements env id) as [[its]|e]; simpl; [|reflexivity].
    destruct its as [|it its]; [apply IH|].
    destruct (process_items _ _ _ _); simpl; [apply IH | reflexivity]. }
  rewrite (Hskip (ev_userId ev :: ev_groupIds ev)), Hids.
  by rewrite <- (Hskip (ev_userId ev' :: ev_groupIds ev')).
Qed.

Lemma falsy_ids_skipped_witness :
  aggregate end_to_end (Some "000000000000") (request_event "u1" ["g1"])
  = aggregate end_to_end (Some "000000000000")
      {| ev_id := PStr "req-1"; ev_userId := PStr "u1";
         ev_groupIds := [PStr ""; PNone; PStr "g1"]; ev_username := PStr "ana" |}.
Proof.
  apply (falsy_ids_skipped end_to_end (Some "000000000000")); reflexivity.
Defined.

(** When no identity of the set resolves a policy, the aggregate has an
    empty [policy] list, with the event's [id] and [username]. *)
Theorem no_policies (env : aws) (mgmt_account_id : option string) (ev : event) :
  resolve env (ev_userId ev :: ev_groupIds ev) = Return [] →
  aggregate env mgmt_account_id ev
  = Return {| res_id := ev_id ev; res_policy := []; res_username := ev_username ev |}.
Proof.
  intros Hres. unfold aggregate.
  by rewrite (process_ids_of_resolve _ _ _ _ _ Hres).
Qed.

Lemma no_policies_witness :
  aggregate end_to_end (Some "000000000000") (request_event "u1" ["g7"])
  = Return {| res_id := PStr "req-1"; res_policy := []; res_username := PStr "ana" |}.
Proof.
  apply (no_policies end_to_end (Some "000000000000") (request_event "u1" ["g7"])).
  vm_compute. reflexivity.
Defined.

(** An exception of [int] on the duration of a policy is not caught: when
    the policies before it are processed, the handler raises it, whatever
    the later policies are. *)
Theorem int_error_escapes (env : aws) (mgmt_account_id : option string)
    (ev : event) (pre post : list item) (it : item) (st : Z * list policy)
    (e : exn) :
  resolve env (ev_userId ev :: ev_groupIds ev) = Return (pre ++ it :: post) →
  process_items env mgmt_account_id (0, []) pre = Return st →
  int (default (PStr "0") (item_duration it)) = Raise e →
  handler env mgmt_account_id ev = Raise e.
Proof.
  intros Hres Hpre Hint. unfold handler, aggregate.
  rewrite (process_ids_of_resolve _ _ _ _ _ Hres), process_items_app, Hpre.
  simpl. destruct st as [m el]. unfold process_item. by rewrite Hint.
Qed.

Lemma int_error_escapes_witness :
  handler bad_duration (Some "000000000000") (request_event "A" ["H"; "B"])
  = Raise (ValueError "invalid literal for int() with base 10").
Proof.
  apply (int_error_escapes bad_duration (Some "000000000000")
           (request_event "A" ["H"; "B"]) [policy_A] [] hourly_policy
           (5, [ {| accounts := [ {[ "id" := PStr "acc1" ]} ];
                    permissions := [ {[ "id" := PStr "p1" ]} ];
                    approvalRequired := PBool true;
                    duration := PStr "5" |} ])).
  - vm_compute. reflexivity.
  - vm_compute. reflexivity.
  - vm_compute. reflexivity.
Defined.

(** With credentials in the session, what the handler returns or raises
    is what the aggregation returns or raises: the answer of AppSync does
    not change it. *)
Theorem handler_is_aggregate (env : aws) (mgmt_account_id : option string)
    (ev : event) :
  is_Some (get_credentials env) →
  handler env mgmt_account_id ev = aggregate env mgmt_account_id ev.
Proof.
  intros Hcred. unfold handler.
  destruct (aggregate env mgmt_account_id ev) as [res|e]; simpl;
    [by apply publishPolicy_returns | reflexivity].
Qed.

Lemma handler_is_aggregate_witness :
  handler sink_rejects (Some "000000000000") (request_event "u1" ["g1"])
  = aggregate sink_rejects (Some "000000000000") (request_event "u1" ["g1"]).
Proof.
  apply (handler_is_aggregate sink_rejects (Some "000000000000")
           (request_event "u1" ["g1"])).
  eexists. reflexivity.
Defined.

(** Without credentials in the session, [publishPolicy] raises before its
    try block: a successful aggregation ends in [AttributeError]. *)
Theorem no_credentials_raises (env : aws) (mgmt_account_id : option string)
    (ev : event) (res : result) :
  get_credentials env = None →
  aggregate env mgmt_account_id ev = Return res →
  handler env mgmt_account_id ev
  = Raise (AttributeError "'NoneType' object has no attribute 'get_frozen_credentials'").
Proof.
  intros Hcred Hagg. unfold handler, publishPolicy. by rewrite Hagg, Hcred.
Qed.

Lemma no_credentials_raises_witness :
  handler no_credentials (Some "000000000000") (request_event "u1" ["g1"])
  = Raise (AttributeError "'NoneType' object has no attribute 'get_frozen_credentials'").
Proof.
  apply (no_credentials_raises no_credentials (Some "000000000000")
           (request_event "u1" ["g1"]) end_to_end_result).
  - reflexivity.
  - vm_compute. reflexivity.
Defined.

End EntitlementMore.
